(** * webdriver.atoms.element: attribute resolution and key typing

    A shallow embedding of [javascript/webdriver/atoms/element.js]:
    [webdriver.atoms.element.getAttribute] (the attribute resolver) and
    [webdriver.atoms.element.type] (the key-sequence translator and the
    loop that drives the keyboard executor), with the properties of the
    design document proved about them.

    What the file depends on but does not define is taken as a parameter:
    - the JavaScript runtime ([toLowerCase], number formatting, objects)
      is the class [JSRuntime];
    - the DOM adapter [bot.dom.*] is the class [DomAdapter];
    - the table [webdriver.Key] of protocol key codes is the record
      [Key.t]; the symbolic keys [bot.Keyboard.Keys.*] the source names
      are the enumeration [botKey.t];
    - the keyboard executor [bot.action.type] is the class [Executor]. *)

From Stdlib Require Import String Ascii NArith List Bool Lia.
From stdpp Require Import base option list gmap.

(** ** JavaScript values *)

(** A JavaScript string is a sequence of UTF-16 code units. *)
Abbreviation JSString := (list N).

(** An ASCII literal as a JavaScript string. *)
Definition js (s : string) : JSString :=
  List.map N_of_ascii (list_ascii_of_string s).
Arguments js s%_string.

Inductive JSValue' (Num Obj : Type) : Type :=
  | VUndefined
  | VNull
  | VBool (b : bool)
  | VNumber (n : Num)
  | VString (s : JSString)
  | VObject (o : Obj).
Arguments VUndefined {Num Obj}.
Arguments VNull {Num Obj}.
Arguments VBool {Num Obj} b.
Arguments VNumber {Num Obj} n.
Arguments VString {Num Obj} s.
Arguments VObject {Num Obj} o.

(** What a [throw] carries: an [Error] built by this file, a [TypeError]
    of the runtime, or a value thrown by host code. *)
Inductive JSError' (Exn : Type) : Type :=
  | Error (message : JSString)
  | TypeError
  | Thrown (e : Exn).
Arguments Error {Exn} message.
Arguments TypeError {Exn}.
Arguments Thrown {Exn} e.

(** The outcome of an expression that may throw. *)
Inductive JSResult' (Exn A : Type) : Type :=
  | Return (a : A)
  | Throw (e : JSError' Exn).
Arguments Return {Exn A} a.
Arguments Throw {Exn A} e.

Definition bind' {Exn A B} (r : JSResult' Exn A) (k : A -> JSResult' Exn B)
  : JSResult' Exn B :=
  match r with
  | Return a => k a
  | Throw e => Throw e
  end.

Notation "x <- r ;; k" := (bind' r (fun x => k))
  (at level 100, r at next level, right associativity, only parsing).

(** The part of the runtime the file relies on. Numbers are kept abstract:
    only their truthiness and their [toString] are used. Objects (functions
    included) are abstract; [object_get o p] is the read [o.p],
    [object_toString o] the call [o.toString()] and [object_ToString o] the
    coercion [o + ''].  [Object_prototype p] is the member [p] an object
    literal inherits ([VUndefined] when there is none). *)
Class JSRuntime := {
  JSNumber : Type;
  JSObject : Type;
  JSExn : Type;
  toLowerCase : JSString -> JSString;
  number_truthy : JSNumber -> bool;
  number_toString : JSNumber -> JSString;
  object_get : JSObject -> JSString -> JSValue' JSNumber JSObject;
  object_toString : JSObject -> JSResult' JSExn JSString;
  object_ToString : JSObject -> JSResult' JSExn JSString;
  Object_prototype : JSString -> JSValue' JSNumber JSObject;
}.

Abbreviation JSValue := (JSValue' JSNumber JSObject).
Abbreviation JSError := (JSError' JSExn).
Abbreviation JSResult := (JSResult' JSExn).

Section Values.
Context `{JSRuntime}.

(** [ToBoolean]. *)
Definition truthy (v : JSValue) : bool :=
  match v with
  | VUndefined | VNull => false
  | VBool b => b
  | VNumber n => number_truthy n
  | VString s => negb (bool_decide (s = []))
  | VObject _ => true
  end.

(** [typeof v == 'string'] *)
Definition goog_isString (v : JSValue) : bool :=
  match v with VString _ => true | _ => false end.

(** [v === null] *)
Definition goog_isNull (v : JSValue) : bool :=
  match v with VNull => true | _ => false end.

(** [v !== undefined] *)
Definition goog_isDef (v : JSValue) : bool :=
  match v with VUndefined => false | _ => true end.

(** [v != null] *)
Definition goog_isDefAndNotNull (v : JSValue) : bool :=
  match v with VUndefined | VNull => false | _ => true end.

(** [typeof v == 'object' && v != null || typeof v == 'function'] *)
Definition goog_isObject (v : JSValue) : bool :=
  match v with VObject _ => true | _ => false end.

(** The read [value.cssText] where [value] is truthy and no string: a
    boolean or a number has no such member. *)
Definition cssText (value : JSValue) : JSValue :=
  match value with
  | VObject o => object_get o (js "cssText")
  | _ => VUndefined
  end.

(** The method call [v.toString()]. *)
Definition method_toString (v : JSValue) : JSResult JSString :=
  match v with
  | VUndefined | VNull => Throw TypeError
  | VBool b => Return (if b then js "true" else js "false")
  | VNumber n => Return (number_toString n)
  | VString s => Return s
  | VObject o => object_toString o
  end.

(** The coercion [v + '']. *)
Definition concat_empty (v : JSValue) : JSResult JSString :=
  match v with
  | VUndefined => Return (js "undefined")
  | VNull => Return (js "null")
  | VBool b => Return (if b then js "true" else js "false")
  | VNumber n => Return (number_toString n)
  | VString s => Return s
  | VObject o => object_ToString o
  end.

(** A nullable string ([?string]) as a value. *)
Definition of_nullable (a : option JSString) : JSValue :=
  match a with
  | Some s => VString s
  | None => VNull
  end.

(** [goog.array.contains(arr, s)] on an array of strings. *)
Definition goog_array_contains (arr : list JSString) (s : JSString) : bool :=
  existsb (fun x => bool_decide (x = s)) arr.
End Values.

(** ** The DOM adapter *)

Module TagName.
Inductive t := A | IMG.

#[global] Instance eq_dec : EqDecision t.
Proof. solve_decision. Defined.
End TagName.

(** [bot.dom] and the element's own [style] member. Only [getProperty] may
    throw: the source guards it with [try]/[catch] where it tolerates a
    failure. The property key is a value because [getAttribute] may pass a
    member inherited from [Object.prototype]. *)
Class DomAdapter `{JSRuntime} (Element : Type) := {
  element_style : Element -> JSValue;
  bot_dom_isSelectable : Element -> bool;
  bot_dom_isSelected : Element -> bool;
  bot_dom_isElement : Element -> TagName.t -> bool;
  bot_dom_getAttribute : Element -> JSString -> option JSString;
  bot_dom_getProperty : Element -> JSValue -> JSResult JSValue;
}.

(** ** webdriver.atoms.element.getAttribute *)

Definition PROPERTY_ALIASES_ : gmap JSString JSString :=
  <[ js "readonly" := js "readOnly" ]> (<[ js "class" := js "className" ]> ∅).

Definition BOOLEAN_PROPERTIES_ : list JSString :=
  [ js "async"; js "autofocus"; js "autoplay"; js "checked"; js "compact";
    js "complete"; js "controls"; js "declare"; js "defaultchecked";
    js "defaultselected"; js "defer"; js "disabled"; js "draggable";
    js "ended"; js "formnovalidate"; js "hidden"; js "indeterminate";
    js "iscontenteditable"; js "ismap"; js "itemscope"; js "loop";
    js "multiple"; js "muted"; js "nohref"; js "noresize"; js "noshade";
    js "novalidate"; js "nowrap"; js "open"; js "paused"; js "pubdate";
    js "readonly"; js "required"; js "reversed"; js "scoped"; js "seamless";
    js "seeking"; js "selected"; js "spellcheck"; js "truespeed";
    js "willvalidate" ].

Section GetAttribute.
Context `{JSRuntime} {Element : Type} `{!DomAdapter Element}.

(** [PROPERTY_ALIASES_[attribute]]: an own member, else an inherited one. *)
Definition PROPERTY_ALIASES_lookup (attribute : JSString) : JSValue :=
  match PROPERTY_ALIASES_ !! attribute with
  | Some alias => VString alias
  | None => Object_prototype attribute
  end.

(** [PROPERTY_ALIASES_[attribute] || attribute] *)
Definition propName (attribute : JSString) : JSValue :=
  let alias := PROPERTY_ALIASES_lookup attribute in
  if truthy alias then alias else VString attribute.

(** [bot.dom.getProperty(element, name) + ''] *)
Definition spellcheck_property (element : Element) (name : JSString)
  : JSResult JSValue :=
  property <- bot_dom_getProperty element (VString name) ;;
  s <- concat_empty property ;;
  Return (VString s).

(** The value of the property or attribute [attribute] of [element]: what
    the function returns, or what it throws. *)
Definition getAttribute (element : Element) (attribute : JSString)
  : JSResult JSValue :=
  let name := toLowerCase attribute in
  if bool_decide (js "style" = name) then
    let value := element_style element in
    let value :=
      if truthy value && negb (goog_isString value)
      then cssText value else value in
    Return value
  else if (bool_decide (js "selected" = name) || bool_decide (js "checked" = name))
          && bot_dom_isSelectable element then
    Return (if bot_dom_isSelected element then VString (js "true") else VNull)
  else
    let isLink := bot_dom_isElement element TagName.A in
    let isImg := bot_dom_isElement element TagName.IMG in
    if (isImg && bool_decide (name = js "src"))
       || (isLink && bool_decide (name = js "href")) then
      let value := of_nullable (bot_dom_getAttribute element name) in
      if truthy value
      then bot_dom_getProperty element (VString name)
      else Return value
    else if bool_decide (js "spellcheck" = name) then
      match bot_dom_getAttribute element name with
      | Some value =>
          if bool_decide (toLowerCase value = js "false") then
            Return (VString (js "false"))
          else if bool_decide (toLowerCase value = js "true") then
            Return (VString (js "true"))
          else spellcheck_property element name
      | None => spellcheck_property element name
      end
    else
      let propName := propName attribute in
      if goog_array_contains BOOLEAN_PROPERTIES_ name then
        value <-
          (if negb (goog_isNull (of_nullable (bot_dom_getAttribute element attribute)))
           then Return (VBool true)
           else bot_dom_getProperty element propName) ;;
        Return (if truthy value then VString (js "true") else VNull)
      else
        let property :=
          match bot_dom_getProperty element propName with
          | Return v => v
          | Throw _ => VUndefined
          end in
        let value :=
          if negb (goog_isDefAndNotNull property) || goog_isObject property
          then of_nullable (bot_dom_getAttribute element attribute)
          else property in
        if goog_isDefAndNotNull value
        then s <- method_toString value ;; Return (VString s)
        else Return VNull.

(** The conditions of the first four rules of [getAttribute] (style,
    selection, link and image, spellcheck), which dispatch on the
    lower-cased [name] alone. *)
Definition special_case (element : Element) (name : JSString) : bool :=
  bool_decide (js "style" = name)
  || ((bool_decide (js "selected" = name) || bool_decide (js "checked" = name))
      && bot_dom_isSelectable element)
  || ((bot_dom_isElement element TagName.IMG && bool_decide (name = js "src"))
      || (bot_dom_isElement element TagName.A && bool_decide (name = js "href")))
  || bool_decide (js "spellcheck" = name).
End GetAttribute.

(** ** webdriver.atoms.element.type *)

(** [bot.Keyboard.Keys]: the symbolic keys the source names. Each is taken
    to be a defined key object. *)
Module botKey.
Inductive t :=
  | BACKSPACE | TAB | ENTER | SHIFT | CONTROL | ALT | PAUSE | ESC | SPACE
  | PAGE_UP | PAGE_DOWN | END | HOME | LEFT | UP | RIGHT | DOWN
  | INSERT | DELETE | SEMICOLON | EQUALS
  | NUM_ZERO | NUM_ONE | NUM_TWO | NUM_THREE | NUM_FOUR | NUM_FIVE
  | NUM_SIX | NUM_SEVEN | NUM_EIGHT | NUM_NINE
  | NUM_MULTIPLY | NUM_PLUS | NUM_MINUS | NUM_PERIOD | NUM_DIVISION
  | SEPARATOR
  | F1 | F2 | F3 | F4 | F5 | F6 | F7 | F8 | F9 | F10 | F11 | F12
  | META.
End botKey.

(** [webdriver.Key]: the protocol's key codes, each a string. *)
Module Key.
Record t := {
  NULL : JSString; BACK_SPACE : JSString; TAB : JSString;
  RETURN : JSString; ENTER : JSString; SHIFT : JSString;
  CONTROL : JSString; ALT : JSString; PAUSE : JSString;
  ESCAPE : JSString; SPACE : JSString; PAGE_UP : JSString;
  PAGE_DOWN : JSString; END : JSString; HOME : JSString;
  LEFT : JSString; UP : JSString; RIGHT : JSString; DOWN : JSString;
  INSERT : JSString; DELETE : JSString; SEMICOLON : JSString;
  EQUALS : JSString;
  NUMPAD0 : JSString; NUMPAD1 : JSString; NUMPAD2 : JSString;
  NUMPAD3 : JSString; NUMPAD4 : JSString; NUMPAD5 : JSString;
  NUMPAD6 : JSString; NUMPAD7 : JSString; NUMPAD8 : JSString;
  NUMPAD9 : JSString;
  MULTIPLY : JSString; ADD : JSString; SUBTRACT : JSString;
  DECIMAL : JSString; DIVIDE : JSString; SEPARATOR : JSString;
  F1 : JSString; F2 : JSString; F3 : JSString; F4 : JSString;
  F5 : JSString; F6 : JSString; F7 : JSString; F8 : JSString;
  F9 : JSString; F10 : JSString; F11 : JSString; F12 : JSString;
  META : JSString;
}.
End Key.

(** An entry of a key list: [(string|!bot.Keyboard.Key)]. *)
Inductive KeyOrString :=
  | KString (s : JSString)
  | KKey (k : botKey.t).

(** [{persist: boolean, keys: !Array}] *)
Record SequenceRecord := {
  persist : bool;
  keys : list KeyOrString;
}.

(** [r.persist = b] and [r.keys.push(k)] on a record [r]. *)
Definition set_persist (b : bool) (r : SequenceRecord) : SequenceRecord :=
  {| persist := b; keys := keys r |}.

Definition keys_push (k : KeyOrString) (r : SequenceRecord) : SequenceRecord :=
  {| persist := persist r; keys := keys r ++ [k] |}.

(** The objects [type] allocates live in [heap], addressed by position;
    [convertedSequences] and [current] hold references, so that a write
    through [current] is seen through [convertedSequences]. *)
Record TypeState := {
  heap : list SequenceRecord;
  convertedSequences : list nat;
  current : nat;
}.

(** [a <= b] on strings: code unit by code unit. *)
Fixpoint js_le (a b : JSString) : bool :=
  match a, b with
  | [], _ => true
  | _ :: _, [] => false
  | x :: a', y :: b' =>
      if (x <? y)%N then true
      else if (y <? x)%N then false
      else js_le a' b'
  end.

(** [sequence.split('')] *)
Definition split (sequence : JSString) : list JSString :=
  List.map (fun c => [c]) sequence.

(** [n.toString(16)] for a code unit [n]: the digits 0-9 and a-f, most
    significant first, with no leading zero. *)
Definition hex_digit (d : N) : N :=
  (if d <? 10 then 48 + d else 87 + d)%N.

Fixpoint hex_digits (fuel : nat) (n : N) (acc : JSString) : JSString :=
  match fuel with
  | O => acc
  | S fuel' =>
      let acc' := hex_digit (n mod 16) :: acc in
      if (n / 16 =? 0)%N then acc' else hex_digits fuel' (n / 16)%N acc'
  end.

Definition toString16 (n : N) : JSString :=
  hex_digits (S (N.size_nat n)) n [].

(** [key.charCodeAt(0)]; [NaN] on the empty string does not arise, a key
    being one code unit of a sequence. *)
Definition charCodeAt0 (key : JSString) : N :=
  match key with
  | c :: _ => c
  | [] => 0%N
  end.

(** [goog.array.forEach(arr, f)] where [f] acts on a state and may throw;
    the arrays iterated here are dense and are not resized by [f]. *)
Fixpoint goog_array_forEach {Exn A S : Type} (arr : list A)
    (f : A -> S -> JSResult' Exn unit * S) (s : S) : JSResult' Exn unit * S :=
  match arr with
  | [] => (Return tt, s)
  | x :: arr' =>
      match f x s with
      | (Return _, s') => goog_array_forEach arr' f s'
      | (Throw e, s') => (Throw e, s')
      end
  end.

(** [bot.action.type(element, keys, opt_keyboard, persist)], acting on
    the state [World] of the page and keyboard. *)
Class Executor `{JSRuntime} (Element Keyboard World : Type) := {
  bot_action_type :
    Element -> list KeyOrString -> option Keyboard -> bool ->
    World -> JSResult unit * World;
}.

Section TypeKeys.
Context `{JSRuntime}.
Variable key : Key.t.

(** The table filled by the [goog.scope] block, assignment by assignment,
    a later one overwriting an earlier one on the same key. A key with no
    entry reads as [undefined] (the lookup is [None]); the entry [Some None]
    is [null]. The table is read at keys of the reserved range only, where
    [Object.prototype] has no member. *)
Definition JSON_TO_KEY_MAP_ : gmap JSString (option botKey.t) :=
  let map : gmap JSString (option botKey.t) := ∅ in
  let map := <[ Key.NULL key := None ]> map in
  let map := <[ Key.BACK_SPACE key := Some botKey.BACKSPACE ]> map in
  let map := <[ Key.TAB key := Some botKey.TAB ]> map in
  let map := <[ Key.RETURN key := Some botKey.ENTER ]> map in
  let map := <[ Key.ENTER key := Some botKey.ENTER ]> map in
  let map := <[ Key.SHIFT key := Some botKey.SHIFT ]> map in
  let map := <[ Key.CONTROL key := Some botKey.CONTROL ]> map in
  let map := <[ Key.ALT key := Some botKey.ALT ]> map in
  let map := <[ Key.PAUSE key := Some botKey.PAUSE ]> map in
  let map := <[ Key.ESCAPE key := Some botKey.ESC ]> map in
  let map := <[ Key.SPACE key := Some botKey.SPACE ]> map in
  let map := <[ Key.PAGE_UP key := Some botKey.PAGE_UP ]> map in
  let map := <[ Key.PAGE_DOWN key := Some botKey.PAGE_DOWN ]> map in
  let map := <[ Key.END key := Some botKey.END ]> map in
  let map := <[ Key.HOME key := Some botKey.HOME ]> map in
  let map := <[ Key.LEFT key := Some botKey.LEFT ]> map in
  let map := <[ Key.UP key := Some botKey.UP ]> map in
  let map := <[ Key.RIGHT key := Some botKey.RIGHT ]> map in
  let map := <[ Key.DOWN key := Some botKey.DOWN ]> map in
  let map := <[ Key.INSERT key := Some botKey.INSERT ]> map in
  let map := <[ Key.DELETE key := Some botKey.DELETE ]> map in
  let map := <[ Key.SEMICOLON key := Some botKey.SEMICOLON ]> map in
  let map := <[ Key.EQUALS key := Some botKey.EQUALS ]> map in
  let map := <[ Key.NUMPAD0 key := Some botKey.NUM_ZERO ]> map in
  let map := <[ Key.NUMPAD1 key := Some botKey.NUM_ONE ]> map in
  let map := <[ Key.NUMPAD2 key := Some botKey.NUM_TWO ]> map in
  let map := <[ Key.NUMPAD3 key := Some botKey.NUM_THREE ]> map in
  let map := <[ Key.NUMPAD4 key := Some botKey.NUM_FOUR ]> map in
  let map := <[ Key.NUMPAD5 key := Some botKey.NUM_FIVE ]> map in
  let map := <[ Key.NUMPAD6 key := Some botKey.NUM_SIX ]> map in
  let map := <[ Key.NUMPAD7 key := Some botKey.NUM_SEVEN ]> map in
  let map := <[ Key.NUMPAD8 key := Some botKey.NUM_EIGHT ]> map in
  let map := <[ Key.NUMPAD9 key := Some botKey.NUM_NINE ]> map in
  let map := <[ Key.MULTIPLY key := Some botKey.NUM_MULTIPLY ]> map in
  let map := <[ Key.ADD key := Some botKey.NUM_PLUS ]> map in
  let map := <[ Key.SUBTRACT key := Some botKey.NUM_MINUS ]> map in
  let map := <[ Key.DECIMAL key := Some botKey.NUM_PERIOD ]> map in
  let map := <[ Key.DIVIDE key := Some botKey.NUM_DIVISION ]> map in
  let map := <[ Key.SEPARATOR key := Some botKey.SEPARATOR ]> map in
  let map := <[ Key.F1 key := Some botKey.F1 ]> map in
  let map := <[ Key.F2 key := Some botKey.F2 ]> map in
  let map := <[ Key.F3 key := Some botKey.F3 ]> map in
  let map := <[ Key.F4 key := Some botKey.F4 ]> map in
  let map := <[ Key.F5 key := Some botKey.F5 ]> map in
  let map := <[ Key.F6 key := Some botKey.F6 ]> map in
  let map := <[ Key.F7 key := Some botKey.F7 ]> map in
  let map := <[ Key.F8 key := Some botKey.F8 ]> map in
  let map := <[ Key.F9 key := Some botKey.F9 ]> map in
  let map := <[ Key.F10 key := Some botKey.F10 ]> map in
  let map := <[ Key.F11 key := Some botKey.F11 ]> map in
  let map := <[ Key.F12 key := Some botKey.F12 ]> map in
  let map := <[ Key.META key := Some botKey.META ]> map in
  map.

(** ['\uE000' <= c && c <= '\uE03D']: U+E000 is 57344, U+E03D is 57405. *)
Definition isWebDriverKey (c : JSString) : bool :=
  js_le [57344%N] c && js_le c [57405%N].

Section Convert.
Variable persistModifierKeys : bool.

Definition createSequenceRecord : SequenceRecord :=
  {| persist := persistModifierKeys; keys := [] |}.

(** [convertedSequences.push(current = createSequenceRecord())] *)
Definition push_new_current (st : TypeState) : TypeState :=
  let ref := length (heap st) in
  {| heap := heap st ++ [createSequenceRecord];
     convertedSequences := convertedSequences st ++ [ref];
     current := ref |}.

(** [current.persist = false] *)
Definition current_set_persist (b : bool) (st : TypeState) : TypeState :=
  {| heap := alter (set_persist b) (current st) (heap st);
     convertedSequences := convertedSequences st;
     current := current st |}.

(** [current.keys.push(k)] *)
Definition current_keys_push (k : KeyOrString) (st : TypeState) : TypeState :=
  {| heap := alter (keys_push k) (current st) (heap st);
     convertedSequences := convertedSequences st;
     current := current st |}.

(** [var current = createSequenceRecord();
    convertedSequences.push(current);] on the empty array. *)
Definition initial : TypeState :=
  {| heap := [createSequenceRecord];
     convertedSequences := [0];
     current := 0 |}.

(** The body of the inner loop, for one [key]. *)
Definition convert_key (key : JSString) (st : TypeState)
  : JSResult unit * TypeState :=
  if isWebDriverKey key then
    match JSON_TO_KEY_MAP_ !! key with
    | Some None =>
        let st := push_new_current st in
        if persistModifierKeys then
          let st := current_set_persist false st in
          (Return tt, push_new_current st)
        else (Return tt, st)
    | Some (Some webdriverKey) =>
        (Return tt, current_keys_push (KKey webdriverKey) st)
    | None =>
        (Throw (Error (js "Unsupported WebDriver key: \u"
                       ++ toString16 (charCodeAt0 key))), st)
    end
  else if bool_decide (key = [10%N]) then
    (Return tt, current_keys_push (KKey botKey.ENTER) st)
  else if bool_decide (key = [9%N]) then
    (Return tt, current_keys_push (KKey botKey.TAB) st)
  else if bool_decide (key = [8%N]) then
    (Return tt, current_keys_push (KKey botKey.BACKSPACE) st)
  else
    (Return tt, current_keys_push (KString key) st).

(** The two nested loops over [keys]. *)
Definition convert (keys : list JSString) : JSResult unit * TypeState :=
  goog_array_forEach keys
    (fun sequence => goog_array_forEach (split sequence) convert_key)
    initial.
End Convert.

(** What [convertedSequences] holds, read through the references. *)
Definition batches (st : TypeState) : list SequenceRecord :=
  omap (fun ref => heap st !! ref) (convertedSequences st).

(** [!!opt_persistModifiers] *)
Definition persistModifierKeys_of (opt_persistModifiers : option bool) : bool :=
  match opt_persistModifiers with
  | Some b => b
  | None => false
  end.

(** The first half of [type], up to the loop over [convertedSequences]:
    the key-sequence translator. *)
Definition translate (keys : list JSString) (opt_persistModifiers : option bool)
  : JSResult (list SequenceRecord) :=
  match convert (persistModifierKeys_of opt_persistModifiers) keys with
  | (Return _, st) => Return (batches st)
  | (Throw e, _) => Throw e
  end.

Context {Element Keyboard World : Type} `{!Executor Element Keyboard World}.

(** The body of the last loop, for one reference of [convertedSequences]. *)
Definition type_sequence (element : Element) (opt_keyboard : option Keyboard)
    (st : TypeState) (ref : nat) (w : World) : JSResult unit * World :=
  match heap st !! ref with
  | Some sequence =>
      bot_action_type element (keys sequence) opt_keyboard (persist sequence) w
  | None => (Throw TypeError, w)
  end.

(** Types [keys] on [element]: what the call returns or throws, and the
    state the executor is left in. *)
Definition type (element : Element) (keys : list JSString)
    (opt_keyboard : option Keyboard) (opt_persistModifiers : option bool)
    (w : World) : JSResult unit * World :=
  let persistModifierKeys := persistModifierKeys_of opt_persistModifiers in
  match convert persistModifierKeys keys with
  | (Throw e, _) => (Throw e, w)
  | (Return _, st) =>
      goog_array_forEach (convertedSequences st)
        (type_sequence element opt_keyboard st) w
  end.
End TypeKeys.

(** ** The translation without the heap

    The same translation as a function of the raw keys alone, used to
    reason about [translate]; [convert_segment] below relates the two. *)
Section Segment.
Context `{JSRuntime}.
Variable key : Key.t.
Variable persistModifierKeys : bool.

(** What the loop body does with a key: push an entry on the current
    batch, release the modifiers, or throw. *)
Inductive key_action :=
  | Push (x : KeyOrString)
  | Release
  | Unsupported.

(** What the [switch] pushes for a key outside the reserved range. *)
Definition plain_key (k : JSString) : KeyOrString :=
  if bool_decide (k = [10%N]) then KKey botKey.ENTER
  else if bool_decide (k = [9%N]) then KKey botKey.TAB
  else if bool_decide (k = [8%N]) then KKey botKey.BACKSPACE
  else KString k.

Definition action_of (k : JSString) : key_action :=
  if isWebDriverKey k then
    match JSON_TO_KEY_MAP_ key !! k with
    | Some None => Release
    | Some (Some webdriverKey) => Push (KKey webdriverKey)
    | None => Unsupported
    end
  else Push (plain_key k).

(** A key the table maps to [null]: the release-modifiers code. *)
Definition is_release (k : JSString) : bool :=
  match action_of k with Release => true | _ => false end.

(** A key of the reserved range the table has no entry for. *)
Definition is_unsupported (k : JSString) : bool :=
  match action_of k with Unsupported => true | _ => false end.

(** The batch a release code inserts when modifiers persist. *)
Definition forced : list SequenceRecord :=
  if persistModifierKeys then [ {| persist := false; keys := [] |} ] else [].

(** The batches from the current one on, for the keys still to come. *)
Fixpoint segment (ks : list JSString) (cur : SequenceRecord)
  : JSResult (list SequenceRecord) :=
  match ks with
  | [] => Return [cur]
  | k :: ks' =>
      match action_of k with
      | Push x => segment ks' (keys_push x cur)
      | Release =>
          rest <- segment ks' (createSequenceRecord persistModifierKeys) ;;
          Return (cur :: forced ++ rest)
      | Unsupported =>
          Throw (Error (js "Unsupported WebDriver key: \u"
                        ++ toString16 (charCodeAt0 k)))
      end
  end.

(** The persist flags a key adds to the output. *)
Definition flags_of (k : JSString) : list bool :=
  if is_release k then
    (if persistModifierKeys then [false; persistModifierKeys]
     else [persistModifierKeys])
  else [].

(** Every allocated record is in [convertedSequences], in allocation
    order, and [current] is the last one. *)
Definition wf (st : TypeState) : Prop :=
  convertedSequences st = seq 0 (length (heap st))
  /\ S (current st) = length (heap st).
End Segment.

(** ** What the design document asks of the executor loop *)

(** [executes element kb w bs r w' calls]: from [w], the executor is invoked
    on the batches [bs] one after the other, in list order, each with its key
    list and its persist flag; the first failure ends the run with its error.
    [calls] lists the batches the executor was invoked on, [w'] is the state
    it left and [r] the outcome. *)
Inductive executes `{JSRuntime} {Element Keyboard World : Type}
    `{!Executor Element Keyboard World}
    (element : Element) (kb : option Keyboard)
  : World -> list SequenceRecord -> JSResult unit -> World ->
    list SequenceRecord -> Prop :=
  | executes_done w :
      executes element kb w [] (Return tt) w []
  | executes_next w b bs w1 r w' calls :
      bot_action_type element (keys b) kb (persist b) w = (Return tt, w1) ->
      executes element kb w1 bs r w' calls ->
      executes element kb w (b :: bs) r w' (b :: calls)
  | executes_fail w b bs e w1 :
      bot_action_type element (keys b) kb (persist b) w = (Throw e, w1) ->
      executes element kb w (b :: bs) (Throw e) w1 [b].

(** ** A sample runtime, page and keyboard

    Instances of the parameters, on which the definitions run. *)
Module Sample.

(** [toLowerCase] on ASCII letters; other code units are kept. *)
Definition ascii_toLowerCase (s : JSString) : JSString :=
  List.map (fun c => if (65 <=? c)%N && (c <=? 90)%N then (c + 32)%N else c) s.

Fixpoint dec_digits (fuel : nat) (n : N) (acc : JSString) : JSString :=
  match fuel with
  | O => acc
  | S fuel' =>
      let acc' := (48 + n mod 10)%N :: acc in
      if (n / 10 =? 0)%N then acc' else dec_digits fuel' (n / 10)%N acc'
  end.

(** Objects of the sample page: a style declaration, or a function. *)
Inductive object :=
  | CSSStyleDeclaration (text : JSString)
  | Function (name : JSString).

Definition inherited : list JSString :=
  [ js "constructor"; js "toString"; js "valueOf"; js "hasOwnProperty" ].

#[global] Instance runtime : JSRuntime := {|
  JSNumber := N;
  JSObject := object;
  JSExn := JSString;
  toLowerCase := ascii_toLowerCase;
  number_truthy n := negb (n =? 0)%N;
  number_toString n := dec_digits (S (N.size_nat n)) n [];
  object_get o p :=
    match o with
    | CSSStyleDeclaration t =>
        if bool_decide (p = js "cssText") then VString t else VUndefined
    | Function _ => VUndefined
    end;
  object_toString o :=
    match o with
    | CSSStyleDeclaration _ => Return (js "[object CSSStyleDeclaration]")
    | Function name => Return (js "function " ++ name ++ js "() { [native code] }")
    end;
  object_ToString o :=
    match o with
    | CSSStyleDeclaration _ => Return (js "[object CSSStyleDeclaration]")
    | Function name => Return (js "function " ++ name ++ js "() { [native code] }")
    end;
  Object_prototype p :=
    if bool_decide (p ∈ inherited) then VObject (Function p) else VUndefined;
|}.

(** An element of the sample page. Attribute names are matched in lower
    case, property names exactly; reading a property of [broken] throws. *)
Record element := {
  tagName : option TagName.t;
  style : JSValue;
  selectable : bool;
  selected : bool;
  attributes : gmap JSString JSString;
  properties : gmap JSString JSValue;
  broken : list JSString;
}.

#[global] Instance dom : DomAdapter element := {|
  element_style e := style e;
  bot_dom_isSelectable e := selectable e;
  bot_dom_isSelected e := selected e;
  bot_dom_isElement e tag := bool_decide (tagName e = Some tag);
  bot_dom_getAttribute e name := attributes e !! ascii_toLowerCase name;
  bot_dom_getProperty e p :=
    match p with
    | VString name =>
        if bool_decide (name ∈ broken e)
        then Throw (Thrown (js "NS_ERROR_FAILURE"))
        else Return (default VUndefined (properties e !! name))
    | _ => Return VUndefined
    end;
|}.

(** The same page read by a host whose failing property reads throw
    another exception. *)
Definition dom_other_host : DomAdapter element := {|
  element_style e := style e;
  bot_dom_isSelectable e := selectable e;
  bot_dom_isSelected e := selected e;
  bot_dom_isElement e tag := bool_decide (tagName e = Some tag);
  bot_dom_getAttribute e name := attributes e !! ascii_toLowerCase name;
  bot_dom_getProperty e p :=
    match p with
    | VString name =>
        if bool_decide (name ∈ broken e)
        then Throw (Thrown (js "SecurityError"))
        else Return (default VUndefined (properties e !! name))
    | _ => Return VUndefined
    end;
|}.

(** A loaded image: [complete] is a property with no attribute. *)
Definition img : element := {|
  tagName := Some TagName.IMG;
  style := VObject (CSSStyleDeclaration []);
  selectable := false;
  selected := false;
  attributes := <[ js "src" := js "logo.png" ]> ∅;
  properties :=
    <[ js "complete" := VBool true ]>
      (<[ js "src" := VString (js "http://host/dir/logo.png") ]> ∅);
  broken := [];
|}.

(** An anchor with a relative [href], and one with none. *)
Definition anchor : element := {|
  tagName := Some TagName.A;
  style := VObject (CSSStyleDeclaration (js "color: red;"));
  selectable := false;
  selected := false;
  attributes := <[ js "href" := js "page.html" ]> ∅;
  properties := <[ js "href" := VString (js "http://host/dir/page.html") ]> ∅;
  broken := [];
|}.

Definition bare_anchor : element := {|
  tagName := Some TagName.A;
  style := VObject (CSSStyleDeclaration []);
  selectable := false;
  selected := false;
  attributes := ∅;
  properties := <[ js "href" := VString [] ]> ∅;
  broken := [];
|}.

(** A text input: [disabled=""] is set, [spellcheck] is not; [title] is
    an attribute the sample page keeps no property for. *)
Definition input : element := {|
  tagName := None;
  style := VObject (CSSStyleDeclaration []);
  selectable := false;
  selected := false;
  attributes :=
    <[ js "disabled" := [] ]>
      (<[ js "class" := js "wide" ]> (<[ js "title" := js "hint" ]> ∅));
  properties :=
    <[ js "disabled" := VBool true ]>
      (<[ js "className" := VString (js "wide") ]>
         (<[ js "required" := VBool false ]> ∅));
  broken := [];
|}.

(** The key codes of the JSON wire protocol the source refers to. *)
Definition key : Key.t := {|
  Key.NULL := [57344%N]; Key.BACK_SPACE := [57347%N]; Key.TAB := [57348%N];
  Key.RETURN := [57350%N]; Key.ENTER := [57351%N]; Key.SHIFT := [57352%N];
  Key.CONTROL := [57353%N]; Key.ALT := [57354%N]; Key.PAUSE := [57355%N];
  Key.ESCAPE := [57356%N]; Key.SPACE := [57357%N]; Key.PAGE_UP := [57358%N];
  Key.PAGE_DOWN := [57359%N]; Key.END := [57360%N]; Key.HOME := [57361%N];
  Key.LEFT := [57362%N]; Key.UP := [57363%N]; Key.RIGHT := [57364%N];
  Key.DOWN := [57365%N]; Key.INSERT := [57366%N]; Key.DELETE := [57367%N];
  Key.SEMICOLON := [57368%N]; Key.EQUALS := [57369%N];
  Key.NUMPAD0 := [57370%N]; Key.NUMPAD1 := [57371%N]; Key.NUMPAD2 := [57372%N];
  Key.NUMPAD3 := [57373%N]; Key.NUMPAD4 := [57374%N]; Key.NUMPAD5 := [57375%N];
  Key.NUMPAD6 := [57376%N]; Key.NUMPAD7 := [57377%N]; Key.NUMPAD8 := [57378%N];
  Key.NUMPAD9 := [57379%N];
  Key.MULTIPLY := [57380%N]; Key.ADD := [57381%N]; Key.SEPARATOR := [57382%N];
  Key.SUBTRACT := [57383%N]; Key.DECIMAL := [57384%N]; Key.DIVIDE := [57385%N];
  Key.F1 := [57393%N]; Key.F2 := [57394%N]; Key.F3 := [57395%N];
  Key.F4 := [57396%N]; Key.F5 := [57397%N]; Key.F6 := [57398%N];
  Key.F7 := [57399%N]; Key.F8 := [57400%N]; Key.F9 := [57401%N];
  Key.F10 := [57402%N]; Key.F11 := [57403%N]; Key.F12 := [57404%N];
  Key.META := [57405%N];
|}.

(** A keyboard that records what it is asked to type and breaks down
    once [left] calls have been served. *)
Record world := {
  typed : list (list KeyOrString * bool);
  left : nat;
}.

#[global] Instance keyboard : Executor element unit world := {|
  bot_action_type _ ks _ p w :=
    match left w with
    | O => (Throw (Thrown (js "keyboard failure")), w)
    | S n => (Return tt, {| typed := typed w ++ [(ks, p)]; left := n |})
    end;
|}.
End Sample.

(** ** The other functions of the file *)

Section IsSelected.
Context `{JSRuntime} {Element : Type} `{!DomAdapter Element}.

(** [webdriver.atoms.element.isSelected] *)
Definition isSelected (element : Element) : bool :=
  if negb (bot_dom_isSelectable element) then false
  else bot_dom_isSelected element.
End IsSelected.

(** A node as [isInHead_] reads it: its [tagName] member, a string or
    [undefined], and what reading its [parentNode] member gives: [null],
    a node, or an exception. *)
Inductive Node' (Exn : Type) : Type :=
  | Detached (tagName : option JSString)
  | Child (tagName : option JSString) (parentNode : Node' Exn)
  | Unreadable (tagName : option JSString) (e : JSError' Exn).
Arguments Detached {Exn} tagName.
Arguments Child {Exn} tagName parentNode.
Arguments Unreadable {Exn} tagName e.

Abbreviation Node := (Node' JSExn).

Section IsInHead.
Context `{JSRuntime}.

Definition tagName (element : Node) : option JSString :=
  match element with
  | Detached t | Child t _ | Unreadable t _ => t
  end.

(** [element.tagName && element.tagName.toLowerCase() == 'head'] *)
Definition is_head (element : Node) : bool :=
  match tagName element with
  | Some t =>
      negb (bool_decide (t = [])) && bool_decide (toLowerCase t = js "head")
  | None => false
  end.

(** The [while] loop of [isInHead_], entered on a node. *)
Fixpoint isInHead_loop (element : Node) : bool :=
  if is_head element then true
  else
    match element with
    | Detached _ => false
    | Child _ parentNode => isInHead_loop parentNode
    | Unreadable _ _ => false
    end.

(** [webdriver.atoms.element.isInHead_], on a node or [null]. *)
Definition isInHead_ (element : option Node) : bool :=
  match element with
  | Some node => isInHead_loop node
  | None => false
  end.

(** A node followed by its ancestors, as far as [parentNode] can be read. *)
Fixpoint ancestors_or_self (element : Node) : list Node :=
  element ::
  match element with
  | Child _ parentNode => ancestors_or_self parentNode
  | _ => []
  end.
End IsInHead.

(** ** Notions used to state further properties of [type] *)

Section TranslatorNotions.
Context `{JSRuntime}.
Variable key : Key.t.

(** The assignments of the [goog.scope] block, in the order of the source. *)
Definition assignments : list (JSString * option botKey.t) :=
  [ (Key.NULL key, None);
    (Key.BACK_SPACE key, Some botKey.BACKSPACE);
    (Key.TAB key, Some botKey.TAB);
    (Key.RETURN key, Some botKey.ENTER);
    (Key.ENTER key, Some botKey.ENTER);
    (Key.SHIFT key, Some botKey.SHIFT);
    (Key.CONTROL key, Some botKey.CONTROL);
    (Key.ALT key, Some botKey.ALT);
    (Key.PAUSE key, Some botKey.PAUSE);
    (Key.ESCAPE key, Some botKey.ESC);
    (Key.SPACE key, Some botKey.SPACE);
    (Key.PAGE_UP key, Some botKey.PAGE_UP);
    (Key.PAGE_DOWN key, Some botKey.PAGE_DOWN);
    (Key.END key, Some botKey.END);
    (Key.HOME key, Some botKey.HOME);
    (Key.LEFT key, Some botKey.LEFT);
    (Key.UP key, Some botKey.UP);
    (Key.RIGHT key, Some botKey.RIGHT);
    (Key.DOWN key, Some botKey.DOWN);
    (Key.INSERT key, Some botKey.INSERT);
    (Key.DELETE key, Some botKey.DELETE);
    (Key.SEMICOLON key, Some botKey.SEMICOLON);
    (Key.EQUALS key, Some botKey.EQUALS);
    (Key.NUMPAD0 key, Some botKey.NUM_ZERO);
    (Key.NUMPAD1 key, Some botKey.NUM_ONE);
    (Key.NUMPAD2 key, Some botKey.NUM_TWO);
    (Key.NUMPAD3 key, Some botKey.NUM_THREE);
    (Key.NUMPAD4 key, Some botKey.NUM_FOUR);
    (Key.NUMPAD5 key, Some botKey.NUM_FIVE);
    (Key.NUMPAD6 key, Some botKey.NUM_SIX);
    (Key.NUMPAD7 key, Some botKey.NUM_SEVEN);
    (Key.NUMPAD8 key, Some botKey.NUM_EIGHT);
    (Key.NUMPAD9 key, Some botKey.NUM_NINE);
    (Key.MULTIPLY key, Some botKey.NUM_MULTIPLY);
    (Key.ADD key, Some botKey.NUM_PLUS);
    (Key.SUBTRACT key, Some botKey.NUM_MINUS);
    (Key.DECIMAL key, Some botKey.NUM_PERIOD);
    (Key.DIVIDE key, Some botKey.NUM_DIVISION);
    (Key.SEPARATOR key, Some botKey.SEPARATOR);
    (Key.F1 key, Some botKey.F1);
    (Key.F2 key, Some botKey.F2);
    (Key.F3 key, Some botKey.F3);
    (Key.F4 key, Some botKey.F4);
    (Key.F5 key, Some botKey.F5);
    (Key.F6 key, Some botKey.F6);
    (Key.F7 key, Some botKey.F7);
    (Key.F8 key, Some botKey.F8);
    (Key.F9 key, Some botKey.F9);
    (Key.F10 key, Some botKey.F10);
    (Key.F11 key, Some botKey.F11);
    (Key.F12 key, Some botKey.F12);
    (Key.META key, Some botKey.META) ].

(** The codes the block assigns after [Key.NULL]. *)
Definition codes_after_NULL : list JSString := (tail assignments).*1.

(** The entry a raw key adds to the current batch, if it adds one. *)
Definition pushed (k : JSString) : option KeyOrString :=
  match action_of key k with
  | Push x => Some x
  | _ => None
  end.
End TranslatorNotions.

(** The number a string of hexadecimal digits denotes. *)
Definition hex_value (c : N) : N :=
  (if c <? 58 then c - 48 else c - 87)%N.

Definition hex_number (s : JSString) : N :=
  fold_left (fun a c => 16 * a + hex_value c)%N s 0%N.

(** A sample document: [title] in [head] in [html], whose parent is the
    document, a node with no [tagName]; and a node of a frame that went
    away, the parent of which cannot be read. *)
Definition sample_title : Node :=
  Child (Some (js "TITLE"))
    (Child (Some (js "HEAD"))
       (Child (Some (js "HTML")) (Detached None))).

Definition sample_stale : Node :=
  Child (Some (js "SPAN")) (Unreadable (Some (js "DIV")) (Thrown (js "dead object"))).

(** A sample checkbox, checked by the user, with no [checked] attribute. *)
Definition sample_checkbox : Sample.element := {|
  Sample.tagName := None;
  Sample.style := VObject (Sample.CSSStyleDeclaration []);
  Sample.selectable := true;
  Sample.selected := true;
  Sample.attributes := <[ js "type" := js "checkbox" ]> ∅;
  Sample.properties := <[ js "checked" := VBool true ]> ∅;
  Sample.broken := [];
|}.

(** A sample element whose [onclick] property cannot be read, and whose
    [value] property is the empty string. *)
Definition sample_button : Sample.element := {|
  Sample.tagName := None;
  Sample.style := VUndefined;
  Sample.selectable := false;
  Sample.selected := false;
  Sample.attributes :=
    <[ js "onclick" := js "go()" ]> (<[ js "value" := js "Go" ]> ∅);
  Sample.properties :=
    <[ js "value" := VString [] ]> (<[ js "tabIndex" := VNumber 7%N ]> ∅);
  Sample.broken := [js "onclick"];
|}.


(** A sample anchor whose [href] attribute is empty. *)
Definition sample_empty_anchor : Sample.element := {|
  Sample.tagName := Some TagName.A;
  Sample.style := VObject (Sample.CSSStyleDeclaration []);
  Sample.selectable := false;
  Sample.selected := false;
  Sample.attributes := <[ js "href" := [] ]> ∅;
  Sample.properties := <[ js "href" := VString (js "http://host/dir/") ]> ∅;
  Sample.broken := [];
|}.

(** * Properties *)

(** ** Comparisons of literals *)

(** Replaces a comparison of two string literals by its value. *)
Ltac literals :=
  repeat match goal with
  | |- context [bool_decide (js ?a = js ?b)] =>
      let v := eval vm_compute in (bool_decide (js a = js b)) in
      change (bool_decide (js a = js b)) with v
  end.

Lemma bool_decide_sym {A} `{EqDecision A} (x y : A) :
  bool_decide (x = y) = bool_decide (y = x).
Proof. apply bool_decide_ext. split; congruence. Qed.

Lemma goog_array_contains_spec (arr : list JSString) (s : JSString) :
  goog_array_contains arr s = true <-> s ∈ arr.
Proof.
  unfold goog_array_contains. rewrite existsb_exists. split.
  - intros (x & Hin & Heq). apply bool_decide_eq_true in Heq. subst.
    by apply list_elem_of_In.
  - intros Hin. exists s. split; [by apply list_elem_of_In|].
    by apply bool_decide_eq_true.
Qed.

(** ** The attribute resolver *)

Section GetAttributeFacts.
Context `{JSRuntime} {Element : Type} `{!DomAdapter Element}.

(** Past the special cases, [getAttribute] is the boolean rule or the
    general rule. *)
Lemma getAttribute_not_special (element : Element) (attribute : JSString) :
  special_case element (toLowerCase attribute) = false ->
  getAttribute element attribute =
    if goog_array_contains BOOLEAN_PROPERTIES_ (toLowerCase attribute) then
      value <-
        (if negb (goog_isNull (of_nullable (bot_dom_getAttribute element attribute)))
         then Return (VBool true)
         else bot_dom_getProperty element (propName attribute)) ;;
      Return (if truthy value then VString (js "true") else VNull)
    else
      let property :=
        match bot_dom_getProperty element (propName attribute) with
        | Return v => v
        | Throw _ => VUndefined
        end in
      let value :=
        if negb (goog_isDefAndNotNull property) || goog_isObject property
        then of_nullable (bot_dom_getAttribute element attribute)
        else property in
      if goog_isDefAndNotNull value
      then s <- method_toString value ;; Return (VString s)
      else Return VNull.
Proof.
  unfold special_case, getAttribute. cbv zeta.
  intros Hsp. repeat (apply orb_false_elim in Hsp as [Hsp ?]).
  rewrite Hsp.
  match goal with Hx : (_ || _) && _ = false |- _ => rewrite Hx end.
  match goal with Hx : _ && _ || _ && _  = false |- _ => rewrite Hx end.
  match goal with Hx : bool_decide (js "spellcheck" = _) = false |- _ =>
    rewrite Hx end.
  reflexivity.
Qed.

(** A boolean attribute name that no earlier rule intercepts is no
    special case. *)
Lemma boolean_not_special (element : Element) (name : JSString) :
  goog_array_contains BOOLEAN_PROPERTIES_ name = true ->
  name <> js "spellcheck" ->
  (name = js "selected" \/ name = js "checked" ->
   bot_dom_isSelectable element = false) ->
  special_case element name = false.
Proof.
  intros Hbool Hsp Hsel. unfold special_case.
  assert (forall lit, goog_array_contains BOOLEAN_PROPERTIES_ (js lit) = false ->
                      name <> js lit) as Hne.
  { intros lit Hlit ->. congruence. }
  rewrite (bool_decide_eq_false_2 (js "style" = name)); last first.
  { intros Heq. by apply (Hne "style"%string). }
  rewrite (bool_decide_eq_false_2 (name = js "src")); last first.
  { by apply (Hne "src"%string). }
  rewrite (bool_decide_eq_false_2 (name = js "href")); last first.
  { by apply (Hne "href"%string). }
  rewrite (bool_decide_eq_false_2 (js "spellcheck" = name)); last by congruence.
  rewrite !andb_false_r.
  destruct (bool_decide_reflect (js "selected" = name)) as [Heq|_];
    [rewrite Hsel by (by left); reflexivity|].
  destruct (bool_decide_reflect (js "checked" = name)) as [Heq|_];
    [rewrite Hsel by (by right); reflexivity|].
  reflexivity.
Qed.
End GetAttributeFacts.

Section GetAttributeClaims.
Context `{JSRuntime} {Element : Type} `{!DomAdapter Element}.

(** C1. For a name whose lower-cased form is in [BOOLEAN_PROPERTIES_] and
    which no earlier rule intercepts (it is not "spellcheck", and it is not
    "selected" or "checked" on a selectable element), [getAttribute]
    returns "true" when the raw attribute is present, whatever its text
    (the empty string included); when the attribute is absent it returns
    "true" if the property is truthy and null otherwise. It never returns
    the string "false". *)
Theorem boolean_attribute_true_or_null
    (element : Element) (attribute : JSString) :
  goog_array_contains BOOLEAN_PROPERTIES_ (toLowerCase attribute) = true ->
  toLowerCase attribute <> js "spellcheck" ->
  (toLowerCase attribute = js "selected" \/ toLowerCase attribute = js "checked" ->
   bot_dom_isSelectable element = false) ->
  (forall text, bot_dom_getAttribute element attribute = Some text ->
     getAttribute element attribute = Return (VString (js "true")))
  /\ (forall v, bot_dom_getAttribute element attribute = None ->
        bot_dom_getProperty element (propName attribute) = Return v ->
        getAttribute element attribute =
          Return (if truthy v then VString (js "true") else VNull))
  /\ getAttribute element attribute <> Return (VString (js "false")).
Proof.
  intros Hbool Hsp Hsel.
  rewrite getAttribute_not_special by (by apply boolean_not_special).
  rewrite Hbool.
  destruct (bot_dom_getAttribute element attribute) as [text|] eqn:Hattr; simpl.
  - split; [|split]; [done | intros; discriminate | discriminate].
  - split; [|split]; [intros; discriminate | by intros v _ -> |].
    destruct (bot_dom_getProperty element (propName attribute)) as [v|e];
      simpl; [|discriminate].
    destruct (truthy v); discriminate.
Qed.

(** C3. On an anchor asked for "href" and on an image asked for "src":
    when the raw attribute is absent the result is null; when it is
    present and non-empty the result is what reading the property gives. *)
Theorem link_image_url_from_property
    (element : Element) (attribute : JSString) :
  (bot_dom_isElement element TagName.A = true /\ toLowerCase attribute = js "href")
  \/ (bot_dom_isElement element TagName.IMG = true /\ toLowerCase attribute = js "src") ->
  (bot_dom_getAttribute element (toLowerCase attribute) = None ->
     getAttribute element attribute = Return VNull)
  /\ (forall text, bot_dom_getAttribute element (toLowerCase attribute) = Some text ->
        text <> [] ->
        getAttribute element attribute =
          bot_dom_getProperty element (VString (toLowerCase attribute))).
Proof.
  intros Hcase. unfold getAttribute. cbv zeta.
  assert ((bot_dom_isElement element TagName.IMG
             && bool_decide (toLowerCase attribute = js "src"))
          || (bot_dom_isElement element TagName.A
                && bool_decide (toLowerCase attribute = js "href")) = true) as Hrule.
  { destruct Hcase as [[-> ->]|[-> ->]]; literals; simpl;
      [apply orb_true_r | reflexivity]. }
  assert (bool_decide (js "style" = toLowerCase attribute) = false
          /\ bool_decide (js "selected" = toLowerCase attribute) = false
          /\ bool_decide (js "checked" = toLowerCase attribute) = false)
    as (-> & -> & ->).
  { destruct Hcase as [[_ ->]|[_ ->]]; by literals. }
  simpl. rewrite Hrule. split.
  - by intros ->.
  - intros text -> Hne. simpl.
    destruct (bool_decide_reflect (text = [])); [done | reflexivity].
Qed.

(** C9. Asked for "spellcheck", [getAttribute] never returns null. A raw
    attribute that equals "false" or "true" up to case gives that string;
    in every other case the property is read and coerced to a string, so
    that an absent property gives the string "undefined" or "null". *)
Theorem spellcheck_never_null (element : Element) (attribute : JSString) :
  toLowerCase attribute = js "spellcheck" ->
  let raw := bot_dom_getAttribute element (js "spellcheck") in
  let property := bot_dom_getProperty element (VString (js "spellcheck")) in
  (forall v, getAttribute element attribute = Return v -> exists s, v = VString s)
  /\ (forall text, raw = Some text -> toLowerCase text = js "false" ->
        getAttribute element attribute = Return (VString (js "false")))
  /\ (forall text, raw = Some text -> toLowerCase text = js "true" ->
        getAttribute element attribute = Return (VString (js "true")))
  /\ ((raw = None \/ exists text, raw = Some text
                       /\ toLowerCase text <> js "false"
                       /\ toLowerCase text <> js "true") ->
      getAttribute element attribute =
        (v <- property ;; s <- concat_empty v ;; Return (VString s)))
  /\ (raw = None -> property = Return VUndefined ->
      getAttribute element attribute = Return (VString (js "undefined")))
  /\ (raw = None -> property = Return VNull ->
      getAttribute element attribute = Return (VString (js "null"))).
Proof.
  intros Hname raw property.
  assert (getAttribute element attribute =
          match raw with
          | Some value =>
              if bool_decide (toLowerCase value = js "false") then
                Return (VString (js "false"))
              else if bool_decide (toLowerCase value = js "true") then
                Return (VString (js "true"))
              else spellcheck_property element (js "spellcheck")
          | None => spellcheck_property element (js "spellcheck")
          end) as ->.
  { unfold getAttribute. cbv zeta. rewrite Hname. literals. simpl.
    rewrite !andb_false_r. reflexivity. }
  assert (forall v, spellcheck_property element (js "spellcheck") = Return v ->
                    exists s, v = VString s) as Hstr.
  { unfold spellcheck_property. intros v.
    destruct (bot_dom_getProperty _ _) as [p|]; simpl; [|discriminate].
    destruct (concat_empty p) as [s|]; simpl; [|discriminate].
    intros [= <-]. by exists s. }
  unfold spellcheck_property in *. fold property in Hstr |- *.
  split; [|split; [|split; [|split; [|split]]]].
  - intros v. destruct raw as [text|]; [|apply Hstr].
    repeat case_bool_decide; [intros [= <-]; eauto..|apply Hstr].
  - intros text -> ->. by literals.
  - intros text -> ->. by literals.
  - intros [->|(text & -> & Hf & Ht)]; [done|].
    by rewrite !bool_decide_eq_false_2.
  - by intros -> ->.
  - by intros -> ->.
Qed.
End GetAttributeClaims.

Section GetAttributeReads.
Context `{JSRuntime} {Element : Type}.

(** C8. [getAttribute] is a function of what the adapter answers: two
    calls with the same element and name, between which every read of the
    adapter on that element answers the same, return the same result. *)
Theorem getAttribute_deterministic
    (before after : DomAdapter Element)
    (element : Element) (attribute : JSString) :
  @element_style _ _ before element = @element_style _ _ after element ->
  @bot_dom_isSelectable _ _ before element
    = @bot_dom_isSelectable _ _ after element ->
  @bot_dom_isSelected _ _ before element
    = @bot_dom_isSelected _ _ after element ->
  (forall tag, @bot_dom_isElement _ _ before element tag
               = @bot_dom_isElement _ _ after element tag) ->
  (forall name, @bot_dom_getAttribute _ _ before element name
                = @bot_dom_getAttribute _ _ after element name) ->
  (forall p, @bot_dom_getProperty _ _ before element p
             = @bot_dom_getProperty _ _ after element p) ->
  @getAttribute _ _ before element attribute
    = @getAttribute _ _ after element attribute.
Proof.
  intros Hstyle Hsel Hchk Htag Hattr Hprop.
  unfold getAttribute, spellcheck_property. cbv zeta.
  rewrite Hstyle, Hsel, Hchk, !Htag, !Hattr, !Hprop. reflexivity.
Qed.

Context `{!DomAdapter Element}.

(** In a special case the result depends on the lower-cased name only. *)
Lemma getAttribute_special (element : Element) (a1 a2 : JSString) :
  toLowerCase a1 = toLowerCase a2 ->
  special_case element (toLowerCase a1) = true ->
  getAttribute element a1 = getAttribute element a2.
Proof.
  intros Hlower. unfold special_case, getAttribute. cbv zeta.
  rewrite <- Hlower. generalize (toLowerCase a1). intros name.
  destruct (bool_decide (js "style" = name)); [done|].
  destruct ((bool_decide (js "selected" = name)
             || bool_decide (js "checked" = name))
            && bot_dom_isSelectable element); [done|].
  destruct ((bot_dom_isElement element TagName.IMG
             && bool_decide (name = js "src"))
            || (bot_dom_isElement element TagName.A
                && bool_decide (name = js "href"))); [done|].
  destruct (bool_decide (js "spellcheck" = name)); [done|].
  discriminate.
Qed.

(** C6, as amended. Which rule applies depends on the lower-cased name
    only, and so does the result of the four special cases. In the boolean
    and general cases the reads use the spelling the caller gave: two
    spellings of one name resolve alike when the adapter answers the
    raw-attribute read alike for both and the property read alike for
    both property keys. *)
Theorem getAttribute_case_variants
    (element : Element) (a1 a2 : JSString) :
  toLowerCase a1 = toLowerCase a2 ->
  (special_case element (toLowerCase a1) = false ->
   bot_dom_getAttribute element a1 = bot_dom_getAttribute element a2
   /\ bot_dom_getProperty element (propName a1)
      = bot_dom_getProperty element (propName a2)) ->
  getAttribute element a1 = getAttribute element a2.
Proof.
  intros Hlower Hreads.
  destruct (special_case element (toLowerCase a1)) eqn:Hsp.
  - by apply getAttribute_special.
  - destruct (Hreads eq_refl) as [Hattr Hprop].
    rewrite !getAttribute_not_special by congruence.
    rewrite <- Hlower, Hattr, Hprop. reflexivity.
Qed.
End GetAttributeReads.

(** C1 on the sample input: [disabled=""] resolves to "true". *)
Lemma boolean_attribute_witness :
  getAttribute Sample.input (js "disabled") = Return (VString (js "true")).
Proof.
  refine (proj1 (boolean_attribute_true_or_null
                   Sample.input (js "disabled") _ _ _) [] _).
  - reflexivity.
  - discriminate.
  - intros [Heq|Heq]; discriminate Heq.
  - reflexivity.
Defined.

(** C3 on the sample anchors: the relative [href] resolves to the absolute
    URL the property holds, the missing one to null. *)
Lemma link_image_url_witness :
  getAttribute Sample.anchor (js "href")
    = Return (VString (js "http://host/dir/page.html"))
  /\ getAttribute Sample.bare_anchor (js "HREF") = Return VNull.
Proof.
  split.
  - refine (proj2 (link_image_url_from_property
                     Sample.anchor (js "href") _) (js "page.html") _ _).
    + left. split; reflexivity.
    + reflexivity.
    + discriminate.
  - refine (proj1 (link_image_url_from_property
                     Sample.bare_anchor (js "HREF") _) _).
    + left. split; reflexivity.
    + reflexivity.
Defined.

(** C9 on the sample input, which has neither the attribute nor the
    property: the result is the string "undefined". *)
Lemma spellcheck_witness :
  getAttribute Sample.input (js "SpellCheck") = Return (VString (js "undefined")).
Proof.
  refine (proj1 (proj2 (proj2 (proj2 (proj2
            (spellcheck_never_null Sample.input (js "SpellCheck") _))))) _ _);
    reflexivity.
Defined.

(** C8 on the sample image, none of whose reads fails, read through the
    two sample hosts. *)
Lemma getAttribute_deterministic_witness :
  @getAttribute _ _ Sample.dom Sample.img (js "src")
    = @getAttribute _ _ Sample.dom_other_host Sample.img (js "src").
Proof.
  apply (getAttribute_deterministic
           Sample.dom Sample.dom_other_host Sample.img (js "src"));
    reflexivity.
Defined.

(** C6 as stated fails: the loaded sample image resolves "complete" to
    "true" through the property, and "COMPLETE" to null, no property having
    that spelling. *)
Lemma getAttribute_case_variants_differ :
  toLowerCase (js "COMPLETE") = toLowerCase (js "complete")
  /\ getAttribute Sample.img (js "complete") = Return (VString (js "true"))
  /\ getAttribute Sample.img (js "COMPLETE") = Return VNull
  /\ getAttribute Sample.img (js "COMPLETE")
     <> getAttribute Sample.img (js "complete").
Proof.
  split; [|split; [|split]]; [reflexivity..|].
  vm_compute. discriminate.
Qed.

(** C6 as amended, on the sample input and its [title]. *)
Lemma getAttribute_case_variants_witness :
  getAttribute Sample.input (js "TITLE") = getAttribute Sample.input (js "title").
Proof.
  apply (getAttribute_case_variants Sample.input (js "TITLE") (js "title")).
  - reflexivity.
  - intros _. split; reflexivity.
Defined.

(** ** The loops *)

Section ForEach.
Context {Exn A S : Type}.
Implicit Types (f : A -> S -> JSResult' Exn unit * S) (s : S).

Lemma goog_array_forEach_app (a b : list A) f s :
  goog_array_forEach (a ++ b) f s =
    match goog_array_forEach a f s with
    | (Return _, s') => goog_array_forEach b f s'
    | (Throw e, s') => (Throw e, s')
    end.
Proof.
  revert s. induction a as [|x a IH]; intros s; simpl; [done|].
  destruct (f x s) as [[[]|e] s']; [apply IH | done].
Qed.
End ForEach.

(** The nested loops visit the code units of all sequences in order. *)
Lemma goog_array_forEach_nested {Exn S : Type}
    (keys : list JSString)
    (f : JSString -> S -> JSResult' Exn unit * S) (s : S) :
  goog_array_forEach keys
    (fun sequence => goog_array_forEach (split sequence) f) s
  = goog_array_forEach (split (concat keys)) f s.
Proof.
  revert s. induction keys as [|sequence keys IH]; intros s; simpl; [done|].
  unfold split at 3. rewrite List.map_app. fold (split sequence).
  fold (split (concat keys)). rewrite goog_array_forEach_app.
  destruct (goog_array_forEach (split sequence) f s) as [[[]|e] s'];
    [apply IH | done].
Qed.

(** Reading a list through the references [0 .. length - 1] gives it back. *)
Lemma omap_lookup_seq {A} (pre l : list A) :
  omap (fun ref => (pre ++ l) !! ref) (seq (length pre) (length l)) = l.
Proof.
  revert pre. induction l as [|x l IH]; intros pre; simpl; [done|].
  rewrite list_lookup_middle by done. f_equal.
  specialize (IH (pre ++ [x])).
  rewrite length_app, Nat.add_1_r, <- app_assoc in IH. exact IH.
Qed.

(** ** The translator *)

Section Translator.
Context `{JSRuntime}.
Variable key : Key.t.

(** The reserved range, on a key of one code unit. *)
Lemma isWebDriverKey_range (u : N) :
  isWebDriverKey [u] = true <-> (57344 <= u <= 57405)%N.
Proof.
  unfold isWebDriverKey, js_le.
  destruct (N.ltb_spec 57344 u), (N.ltb_spec u 57344),
    (N.ltb_spec u 57405), (N.ltb_spec 57405 u); simpl; split;
    try done; try lia.
Qed.

Lemma batches_wf (st : TypeState) : wf st -> batches st = heap st.
Proof.
  intros [Hrefs _]. unfold batches. rewrite Hrefs.
  apply (omap_lookup_seq [] (heap st)).
Qed.

Section Steps.
Variable p : bool.
Implicit Types (st : TypeState) (cur : SequenceRecord).

Lemma wf_current st done cur :
  wf st -> heap st = done ++ [cur] -> current st = length done.
Proof.
  intros [_ Hcur] Hheap. rewrite Hheap, length_app in Hcur. simpl in Hcur. lia.
Qed.

Lemma wf_initial : wf (initial p) /\ heap (initial p) = [] ++ [createSequenceRecord p].
Proof. done. Qed.

Lemma wf_alter_current (g : SequenceRecord -> SequenceRecord) st done cur :
  wf st -> heap st = done ++ [cur] ->
  alter g (current st) (heap st) = done ++ [g cur].
Proof.
  intros Hwf Hheap. rewrite (wf_current st done cur) by done.
  rewrite Hheap. rewrite <- (Nat.add_0_r (length done)).
  by rewrite alter_app_r.
Qed.

Lemma wf_keys_push x st done cur :
  wf st -> heap st = done ++ [cur] ->
  wf (current_keys_push x st)
  /\ heap (current_keys_push x st) = done ++ [keys_push x cur].
Proof.
  intros Hwf Hheap. split; [|by apply wf_alter_current].
  destruct Hwf as [Hrefs Hcur]. unfold wf, current_keys_push. simpl.
  by rewrite length_alter.
Qed.

Lemma wf_set_persist b st done cur :
  wf st -> heap st = done ++ [cur] ->
  wf (current_set_persist b st)
  /\ heap (current_set_persist b st) = done ++ [set_persist b cur].
Proof.
  intros Hwf Hheap. split; [|by apply wf_alter_current].
  destruct Hwf as [Hrefs Hcur]. unfold wf, current_set_persist. simpl.
  by rewrite length_alter.
Qed.

Lemma wf_push_new st :
  wf st ->
  wf (push_new_current p st)
  /\ heap (push_new_current p st) = heap st ++ [createSequenceRecord p].
Proof.
  intros [Hrefs Hcur]. split; [|done].
  unfold wf, push_new_current. simpl. rewrite length_app. simpl.
  rewrite Nat.add_1_r, seq_S, Hrefs. done.
Qed.

Lemma convert_key_plain k st :
  isWebDriverKey k = false ->
  convert_key key p k st
    = (Return tt, current_keys_push (plain_key k) st).
Proof.
  intros Hk. unfold convert_key, plain_key. rewrite Hk.
  repeat case_bool_decide; reflexivity.
Qed.

Lemma convert_key_mapped k webdriverKey st :
  isWebDriverKey k = true ->
  JSON_TO_KEY_MAP_ key !! k = Some (Some webdriverKey) ->
  convert_key key p k st
    = (Return tt, current_keys_push (KKey webdriverKey) st).
Proof. intros Hk Hmap. unfold convert_key. by rewrite Hk, Hmap. Qed.

Lemma convert_key_unsupported k st :
  isWebDriverKey k = true ->
  JSON_TO_KEY_MAP_ key !! k = None ->
  convert_key key p k st
    = (Throw (Error (js "Unsupported WebDriver key: \u"
                     ++ toString16 (charCodeAt0 k))), st).
Proof. intros Hk Hmap. unfold convert_key. by rewrite Hk, Hmap. Qed.

End Steps.

(** A release code leaves the current batch as it is, allocates the
    forced batch when modifiers persist, and a fresh current batch. *)
Lemma convert_key_release (p : bool) k (st : TypeState) done cur :
  isWebDriverKey k = true ->
  JSON_TO_KEY_MAP_ key !! k = Some None ->
  wf st -> heap st = done ++ [cur] ->
  exists st',
    convert_key key p k st = (Return tt, st')
    /\ wf st'
    /\ heap st' = (done ++ cur :: forced p) ++ [createSequenceRecord p].
Proof.
  intros Hk Hmap Hwf Hheap. unfold convert_key. rewrite Hk, Hmap.
  destruct (wf_push_new p st Hwf) as [Hwf1 Hheap1].
  rewrite Hheap in Hheap1. clear Hk Hmap.
  unfold forced. destruct p; cbv beta iota zeta.
  - destruct (wf_set_persist false _ _ _ Hwf1 Hheap1) as [Hwf2 Hheap2].
    destruct (wf_push_new true _ Hwf2) as [Hwf3 Hheap3].
    eexists. split; [reflexivity|]. split; [done|].
    rewrite Hheap3, Hheap2. by rewrite <- !app_assoc.
  - eexists. split; [reflexivity|]. split; [done|].
    rewrite Hheap1. by rewrite <- !app_assoc.
Qed.

(** The loop over the raw keys computes [segment] in the heap. *)
Lemma convert_segment (p : bool) (ks : list JSString) :
  forall st done cur,
    wf st -> heap st = done ++ [cur] ->
    match goog_array_forEach ks (convert_key key p) st with
    | (Return _, st') =>
        wf st' /\ exists rest,
          segment key p ks cur = Return rest /\ heap st' = done ++ rest
    | (Throw e, _) => segment key p ks cur = Throw e
    end.
Proof.
  induction ks as [|k ks IH]; intros st done cur Hwf Hheap;
    cbn [goog_array_forEach segment].
  { split; [done|]. by exists [cur]. }
  unfold action_of.
  destruct (isWebDriverKey k) eqn:Hk;
    [destruct (JSON_TO_KEY_MAP_ key !! k) as [[webdriverKey|]|] eqn:Hmap|].
  - rewrite (convert_key_mapped p _ webdriverKey) by done.
    destruct (wf_keys_push (KKey webdriverKey) st done cur) as [Hwf' Hheap'];
      [done..|].
    apply (IH _ _ _ Hwf' Hheap').
  - destruct (convert_key_release p k st done cur) as (st1 & -> & Hwf1 & Hheap1);
      [done..|].
    specialize (IH _ _ _ Hwf1 Hheap1).
    destruct (goog_array_forEach ks _ st1) as [[[]|e] st'].
    + destruct IH as (Hwf' & rest & -> & Hheap').
      split; [done|]. cbn [bind'].
      eexists. split; [reflexivity|]. rewrite Hheap'.
      by rewrite <- !app_assoc.
    + by rewrite IH.
  - by rewrite convert_key_unsupported.
  - rewrite convert_key_plain by done.
    destruct (wf_keys_push (plain_key k) st done cur) as [Hwf' Hheap'];
      [done..|].
    apply (IH _ _ _ Hwf' Hheap').
Qed.

(** [translate] is [segment] on the code units of all the sequences,
    started on a fresh batch. *)
Lemma translate_segment (keys : list JSString) (opt : option bool) :
  translate key keys opt
  = segment key (persistModifierKeys_of opt) (split (concat keys))
      (createSequenceRecord (persistModifierKeys_of opt)).
Proof.
  unfold translate, convert. rewrite goog_array_forEach_nested.
  pose proof (convert_segment (persistModifierKeys_of opt)
                (split (concat keys)) _ [] _
                (proj1 (wf_initial (persistModifierKeys_of opt)))
                (proj2 (wf_initial (persistModifierKeys_of opt)))) as Hsim.
  destruct (goog_array_forEach _ _ _) as [[[]|e] st'].
  - destruct Hsim as (Hwf & rest & -> & Hheap).
    by rewrite batches_wf, Hheap.
  - by rewrite Hsim.
Qed.
End Translator.

(** ** Segmenting, without the heap *)

Section SegmentFacts.
Context `{JSRuntime}.
Variable key : Key.t.
Variable p : bool.

Local Abbreviation fresh := (createSequenceRecord p).

Lemma is_release_spec (k : JSString) :
  is_release key k = true <->
  isWebDriverKey k = true /\ JSON_TO_KEY_MAP_ key !! k = Some None.
Proof.
  unfold is_release, action_of. destruct (isWebDriverKey k).
  - destruct (JSON_TO_KEY_MAP_ key !! k) as [[?|]|]; split;
      first [done | by intros [_ ?]].
  - split; [done | by intros [? _]].
Qed.

Lemma is_unsupported_spec (k : JSString) :
  is_unsupported key k = true <->
  isWebDriverKey k = true /\ JSON_TO_KEY_MAP_ key !! k = None.
Proof.
  unfold is_unsupported, action_of. destruct (isWebDriverKey k).
  - destruct (JSON_TO_KEY_MAP_ key !! k) as [[?|]|]; split;
      first [done | by intros [_ ?]].
  - split; [done | by intros [? _]].
Qed.

Lemma action_of_release (k : JSString) :
  is_release key k = true -> action_of key k = Release.
Proof. unfold is_release. by destruct (action_of key k). Qed.

(** A release code cuts the translation in two. *)
Lemma segment_app_release (c : JSString) ks2 bs2 :
  is_release key c = true ->
  segment key p ks2 fresh = Return bs2 ->
  forall ks1 cur bs1,
    segment key p ks1 cur = Return bs1 ->
    segment key p (ks1 ++ c :: ks2) cur = Return (bs1 ++ forced p ++ bs2).
Proof.
  intros Hc%action_of_release Hbs2.
  induction ks1 as [|k ks1 IH]; intros cur bs1 Hbs1.
  - cbn [segment] in Hbs1. injection Hbs1 as <-.
    cbn [app segment]. by rewrite Hc, Hbs2.
  - rewrite <- app_comm_cons. cbn [segment] in Hbs1 |- *.
    destruct (action_of key k) as [x| |]; [by apply IH | | done].
    destruct (segment key p ks1 fresh) as [rest|] eqn:Hrest; [|done].
    cbn [bind'] in Hbs1. injection Hbs1 as <-.
    rewrite (IH _ _ Hrest). cbn [bind']. f_equal.
    by rewrite <- !app_comm_cons, <- !app_assoc.
Qed.

(** Release codes in a row: each one adds its own batches. *)
Lemma segment_repeat_release (c : JSString) (n : nat) cur :
  is_release key c = true ->
  segment key p (repeat c n) cur
    = Return (cur :: concat (repeat (forced p ++ [fresh]) n)).
Proof.
  intros Hc%action_of_release. revert cur.
  induction n as [|n IH]; intros cur; cbn [repeat segment concat]; [done|].
  rewrite Hc, IH. cbn [bind']. by rewrite <- app_assoc.
Qed.

(** The persist flags of the output, key by key. *)
Lemma segment_flags ks :
  forall cur bs,
    segment key p ks cur = Return bs ->
    List.map persist bs = persist cur :: flat_map (flags_of key p) ks.
Proof.
  induction ks as [|k ks IH]; intros cur bs; cbn [segment flat_map].
  { by intros [= <-]. }
  unfold flags_of at 1, is_release.
  destruct (action_of key k) as [x| |];
    [intros Hbs; by rewrite (IH _ _ Hbs) | | done].
  destruct (segment key p ks fresh) as [rest|] eqn:Hrest; [|done].
  cbn [bind']. intros [= <-]. cbn [List.map]. f_equal.
  rewrite List.map_app, (IH _ _ Hrest). unfold forced.
  by destruct p.
Qed.

(** A batch whose flag is not the requested one is a forced batch. *)
Lemma segment_forced ks :
  forall cur bs,
    persist cur = p ->
    segment key p ks cur = Return bs ->
    Forall (fun b => persist b = p
                     \/ (p = true /\ b = {| persist := false; keys := [] |})) bs.
Proof.
  induction ks as [|k ks IH]; intros cur bs Hcur; cbn [segment].
  { intros [= <-]. by repeat constructor. }
  destruct (action_of key k) as [x| |]; [by apply IH | | done].
  destruct (segment key p ks fresh) as [rest|] eqn:Hrest; [|done].
  cbn [bind']. intros [= <-]. constructor; [by left|].
  apply Forall_app. split; [|by apply (IH fresh)].
  unfold forced. destruct p; [|by constructor].
  constructor; [by right | by constructor].
Qed.

(** The translation throws at the first unsupported key, and only there. *)
Lemma segment_throw_inv (s : JSString) :
  forall cur e,
    segment key p (split s) cur = Throw e ->
    exists s1 u s2,
      s = s1 ++ u :: s2
      /\ Forall (fun u' => is_unsupported key [u'] = false) s1
      /\ is_unsupported key [u] = true
      /\ e = Error (js "Unsupported WebDriver key: \u" ++ toString16 u).
Proof.
  induction s as [|u s IH]; intros cur e; cbn [split List.map segment]; [done|].
  fold (split s).
  destruct (action_of key [u]) as [x| |] eqn:Hact.
  - intros (s1 & u' & s2 & -> & Hs1 & Hu' & ->)%IH.
    exists (u :: s1), u', s2. split; [done|]. split; [|done].
    constructor; [|done]. unfold is_unsupported. by rewrite Hact.
  - destruct (segment key p (split s) fresh) as [rest|] eqn:Hrest; [done|].
    cbn [bind']. intros [= <-].
    apply IH in Hrest as (s1 & u' & s2 & -> & Hs1 & Hu' & ->).
    exists (u :: s1), u', s2. split; [done|]. split; [|done].
    constructor; [|done]. unfold is_unsupported. by rewrite Hact.
  - intros [= <-]. exists [], u, s. split; [done|]. split; [done|].
    split; [|done]. unfold is_unsupported. by rewrite Hact.
Qed.

Lemma segment_throws (s : JSString) :
  forall cur,
    Exists (fun u => is_unsupported key [u] = true) s ->
    exists e, segment key p (split s) cur = Throw e.
Proof.
  induction s as [|u s IH]; intros cur Hex; [by apply Exists_nil in Hex|].
  cbn [split List.map segment]. fold (split s).
  destruct (action_of key [u]) as [x| |] eqn:Hact; [| |by eexists].
  - apply Exists_cons in Hex as [Hu|Hex]; [|by apply IH].
    unfold is_unsupported in Hu. by rewrite Hact in Hu.
  - apply Exists_cons in Hex as [Hu|Hex].
    { unfold is_unsupported in Hu. by rewrite Hact in Hu. }
    destruct (IH fresh Hex) as [e ->]. by exists e.
Qed.
End SegmentFacts.

(** ** The translator and the executor loop *)

Section TranslateClaims.
Context `{JSRuntime}.
Variable key : Key.t.

Lemma split_app (a b : JSString) : split (a ++ b) = split a ++ split b.
Proof. apply List.map_app. Qed.

(** One sequence holding all the code units translates as the list. *)
Lemma translate_concat (keys : list JSString) (opt : option bool) :
  translate key keys opt = translate key [concat keys] opt.
Proof.
  rewrite !translate_segment. cbn [concat]. by rewrite app_nil_r.
Qed.

(** C7. With no raw key at all (no sequence, or empty sequences only) the
    translation is one batch, with no key and with the requested persist
    flag. *)
Theorem translate_no_raw_key (keys : list JSString) (opt : option bool) :
  concat keys = [] ->
  translate key keys opt
    = Return [ {| persist := persistModifierKeys_of opt; keys := [] |} ].
Proof. intros Hnone. rewrite translate_segment, Hnone. reflexivity. Qed.

(** C2. [u] being a release-modifiers code (a code of the reserved range
    that the table maps to null): a release code anywhere in the input
    closes the batches of what precedes it and starts those of what
    follows it, with the forced non-persisting batch in between when
    modifiers persist. Hence a lone release code with persistence gives
    three empty batches flagged true, false, true; "a" and a release code
    without persistence give the two batches of the design document; and
    [n] release codes in a row give [n] expansions, none merged. *)
Theorem release_code_expansion (u : N) :
  (57344 <= u <= 57405)%N ->
  JSON_TO_KEY_MAP_ key !! [u] = Some None ->
  (forall keys opt s1 s2 bs1 bs2,
      concat keys = s1 ++ u :: s2 ->
      translate key [s1] opt = Return bs1 ->
      translate key [s2] opt = Return bs2 ->
      translate key keys opt
        = Return (bs1 ++ forced (persistModifierKeys_of opt) ++ bs2))
  /\ translate key [[u]] (Some true)
     = Return [ {| persist := true; keys := [] |};
                {| persist := false; keys := [] |};
                {| persist := true; keys := [] |} ]
  /\ translate key [js "a" ++ [u]] (Some false)
     = Return [ {| persist := false; keys := [KString (js "a")] |};
                {| persist := false; keys := [] |} ]
  /\ (forall n opt,
        translate key [repeat u n] opt
        = Return (createSequenceRecord (persistModifierKeys_of opt)
                  :: concat (repeat
                       (forced (persistModifierKeys_of opt)
                        ++ [createSequenceRecord (persistModifierKeys_of opt)])
                       n))).
Proof.
  intros Hrange%isWebDriverKey_range Hnull.
  assert (is_release key [u] = true) as Hrel by by apply is_release_spec.
  assert (forall keys opt s1 s2 bs1 bs2,
      concat keys = s1 ++ u :: s2 ->
      translate key [s1] opt = Return bs1 ->
      translate key [s2] opt = Return bs2 ->
      translate key keys opt
        = Return (bs1 ++ forced (persistModifierKeys_of opt) ++ bs2)) as Hcut.
  { intros keys opt s1 s2 bs1 bs2 Hkeys.
    rewrite !translate_segment, Hkeys. cbn [concat]. rewrite !app_nil_r.
    intros Hbs1 Hbs2. rewrite split_app.
    by apply (segment_app_release key _ [u]). }
  split; [exact Hcut|]. split; [|split].
  - apply (Hcut [[u]] (Some true) [] [] [createSequenceRecord true]
                [createSequenceRecord true]); reflexivity.
  - apply (Hcut [js "a" ++ [u]] (Some false) (js "a") []
                [ {| persist := false; keys := [KString (js "a")] |} ]
                [createSequenceRecord false]).
    + cbn [concat]. by rewrite app_nil_r.
    + rewrite translate_segment. vm_compute. reflexivity.
    + reflexivity.
  - intros n opt. rewrite translate_segment. cbn [concat].
    rewrite app_nil_r. unfold split. rewrite List.map_repeat.
    by apply segment_repeat_release.
Qed.

(** C10. The persist flags of the output are the requested flag, followed
    for each release code of the input by [false] and the requested flag
    when modifiers persist, and by the requested flag alone otherwise.
    So every batch has the requested flag except the forced batches, which
    exist only under persistence, are empty and have [persist = false];
    without persistence every batch has [persist = false]. *)
Theorem translate_persist_flags
    (keys : list JSString) (opt : option bool) (bs : list SequenceRecord) :
  translate key keys opt = Return bs ->
  List.map persist bs
    = persistModifierKeys_of opt
      :: flat_map (flags_of key (persistModifierKeys_of opt))
           (split (concat keys))
  /\ Forall (fun b => persist b = persistModifierKeys_of opt
                      \/ (persistModifierKeys_of opt = true
                          /\ b = {| persist := false; keys := [] |})) bs
  /\ (persistModifierKeys_of opt = false ->
      Forall (fun b => persist b = false) bs).
Proof.
  rewrite translate_segment. intros Hbs. split; [|split].
  - by rewrite (segment_flags key _ _ _ _ Hbs).
  - by apply (segment_forced key _ _ _ _ eq_refl Hbs).
  - intros Hp. pose proof (segment_forced key _ _ _ _ eq_refl Hbs) as Hall.
    rewrite Hp in Hall. eapply Forall_impl; [exact Hall|].
    intros b [Hb|[? _]]; done.
Qed.

(** C4. The translation throws exactly when some raw key lies in the
    reserved range U+E000..U+E03D and has no entry in the table. What is
    thrown is the error naming, in hexadecimal, the first such code unit.
    [type] then throws the same error and the executor is not invoked. *)
Theorem translate_unsupported_key (keys : list JSString) (opt : option bool) :
  ((exists e, translate key keys opt = Throw e) <->
   (exists u, u ∈ concat keys /\ (57344 <= u <= 57405)%N
              /\ JSON_TO_KEY_MAP_ key !! [u] = None))
  /\ (forall e, translate key keys opt = Throw e ->
        exists s1 u s2,
          concat keys = s1 ++ u :: s2
          /\ (forall u', u' ∈ s1 ->
                ~ ((57344 <= u' <= 57405)%N
                   /\ JSON_TO_KEY_MAP_ key !! [u'] = None))
          /\ (57344 <= u <= 57405)%N
          /\ JSON_TO_KEY_MAP_ key !! [u] = None
          /\ e = Error (js "Unsupported WebDriver key: \u" ++ toString16 u))
  /\ (forall e, translate key keys opt = Throw e ->
        forall (Element Keyboard World : Type)
               (executor : Executor Element Keyboard World)
               (element : Element) (kb : option Keyboard) (w : World),
          type key element keys kb opt w = (Throw e, w)).
Proof.
  assert (forall u, is_unsupported key [u] = true <->
                    (57344 <= u <= 57405)%N
                    /\ JSON_TO_KEY_MAP_ key !! [u] = None) as Huns.
  { intros u. by rewrite is_unsupported_spec, isWebDriverKey_range. }
  split; [|split].
  - rewrite translate_segment. split.
    + intros [e (s1 & u & s2 & -> & _ & Hu & _)%segment_throw_inv].
      exists u. split; [|by apply Huns].
      apply list_elem_of_In, in_elt.
    + intros (u & Hin & Hu). apply segment_throws.
      apply Exists_exists. exists u. split; [done|]. by apply Huns.
  - intros e. rewrite translate_segment.
    intros (s1 & u & s2 & -> & Hs1 & Hu & ->)%segment_throw_inv.
    exists s1, u, s2. apply Huns in Hu as [Hrange Hmap].
    split; [done|]. split; [|done].
    intros u' Hin Hu'%Huns. rewrite Forall_forall in Hs1.
    apply Hs1 in Hin. congruence.
  - intros e. unfold translate, type.
    destruct (convert key (persistModifierKeys_of opt) keys) as [[[]|e'] st];
      [done|]. by intros [= ->].
Qed.
End TranslateClaims.

Section ExecutorLoop.
Context `{JSRuntime} {Element Keyboard World : Type}
        `{!Executor Element Keyboard World}.
Variable key : Key.t.
Variables (element : Element) (kb : option Keyboard).

Lemma executes_prefix w bs r w' calls :
  executes element kb w bs r w' calls -> calls `prefix_of` bs.
Proof.
  induction 1 as [w|w b bs w1 r w' calls _ _ IH|w b bs e w1 _].
  - done.
  - by apply prefix_cons.
  - by exists bs.
Qed.

Lemma executes_return w bs w' calls :
  executes element kb w bs (Return tt) w' calls -> calls = bs.
Proof.
  remember (Return tt) as r eqn:Hr.
  induction 1 as [w|w b bs w1 r w' calls _ _ IH|w b bs e w1 _].
  - done.
  - by rewrite IH.
  - discriminate.
Qed.

(** The last loop, run on the references of the records [l] that follow
    [pre] in the heap, invokes the executor on [l] in order. *)
Lemma type_sequence_executes (st : TypeState) (l : list SequenceRecord) :
  forall pre w,
    heap st = pre ++ l ->
    exists calls,
      executes element kb w l
        (goog_array_forEach (seq (length pre) (length l))
           (type_sequence element kb st) w).1
        (goog_array_forEach (seq (length pre) (length l))
           (type_sequence element kb st) w).2
        calls.
Proof.
  induction l as [|b l IH]; intros pre w Hheap.
  { exists []. constructor. }
  cbn [length seq goog_array_forEach]. unfold type_sequence at 1 3.
  rewrite Hheap, list_lookup_middle by done.
  destruct (bot_action_type element (keys b) kb (persist b) w)
    as [[[]|e] w1] eqn:Hcall.
  - destruct (IH (pre ++ [b]) w1) as [calls Hcalls].
    { by rewrite <- app_assoc. }
    rewrite length_app, Nat.add_1_r in Hcalls.
    exists (b :: calls). by eapply executes_next.
  - exists [b]. by apply executes_fail.
Qed.

(** C5. When the translation succeeds, [type] invokes the executor on the
    batches it produced, one call per batch, in their order, each with the
    batch's key list and persist flag; a call that throws ends the run
    with its error and with the state it left, the calls made so far
    being a prefix of the batches; when [type] returns normally every
    batch has been executed. When the translation throws, so does [type],
    with no call made. *)
Theorem type_executes_in_order
    (keys : list JSString) (opt : option bool) (w : World) :
  match translate key keys opt with
  | Return bs =>
      exists calls,
        executes element kb w bs
          (type key element keys kb opt w).1
          (type key element keys kb opt w).2
          calls
        /\ calls `prefix_of` bs
        /\ ((type key element keys kb opt w).1 = Return tt -> calls = bs)
  | Throw e => type key element keys kb opt w = (Throw e, w)
  end.
Proof.
  unfold translate, type, convert. rewrite goog_array_forEach_nested.
  pose proof (convert_segment key (persistModifierKeys_of opt)
                (split (concat keys)) _ [] _
                (proj1 (wf_initial (persistModifierKeys_of opt)))
                (proj2 (wf_initial (persistModifierKeys_of opt)))) as Hsim.
  destruct (goog_array_forEach (split (concat keys)) _ _) as [[[]|e] st];
    [|done].
  destruct Hsim as (Hwf & _). rewrite (batches_wf st Hwf).
  destruct Hwf as [-> _].
  destruct (type_sequence_executes st (heap st) [] w eq_refl) as [calls Hex].
  change (length (@nil SequenceRecord)) with 0 in Hex.
  exists calls. split; [exact Hex|]. split.
  - by eapply executes_prefix.
  - intros Hret. rewrite Hret in Hex. by eapply executes_return.
Qed.
End ExecutorLoop.

(** C7 on two empty sequences, persistence requested. *)
Lemma translate_no_raw_key_witness :
  translate Sample.key [[]; []] (Some true)
    = Return [ {| persist := true; keys := [] |} ].
Proof.
  apply (translate_no_raw_key Sample.key [[]; []] (Some true)). reflexivity.
Defined.

(** C2 with the wire protocol's table, whose release code is U+E000:
    "a", the release code and "b", with persistence. *)
Lemma release_code_expansion_witness :
  translate Sample.key [js "a"; [57344%N]; js "b"] (Some true)
    = Return [ {| persist := true; keys := [KString (js "a")] |};
               {| persist := false; keys := [] |};
               {| persist := true; keys := [KString (js "b")] |} ].
Proof.
  refine (proj1 (release_code_expansion Sample.key 57344%N _ _)
            [js "a"; [57344%N]; js "b"] (Some true) (js "a") (js "b")
            [ {| persist := true; keys := [KString (js "a")] |} ]
            [ {| persist := true; keys := [KString (js "b")] |} ] _ _ _).
  - lia.
  - vm_compute. reflexivity.
  - reflexivity.
  - vm_compute. reflexivity.
  - vm_compute. reflexivity.
Defined.

(** C10 on shift, "a", the release code and "b", with persistence. *)
Lemma translate_persist_flags_witness :
  List.map persist
    [ {| persist := true; keys := [KKey botKey.SHIFT; KString (js "a")] |};
      {| persist := false; keys := [] |};
      {| persist := true; keys := [KString (js "b")] |} ]
  = [true; false; true].
Proof.
  refine (proj1 (translate_persist_flags Sample.key
                   [[57352%N; 97%N; 57344%N]; js "b"] (Some true) _ _)).
  vm_compute. reflexivity.
Defined.


(** ** The definitions at work on the sample page and keyboard *)

Example getAttribute_style :
  getAttribute Sample.anchor (js "STYLE") = Return (VString (js "color: red;")).
Proof. reflexivity. Qed.

Example getAttribute_class_alias :
  getAttribute Sample.input (js "class") = Return (VString (js "wide")).
Proof. reflexivity. Qed.

Example getAttribute_required_false :
  getAttribute Sample.input (js "required") = Return VNull.
Proof. reflexivity. Qed.

Example getAttribute_inherited_member :
  propName (js "constructor") = VObject (Sample.Function (js "constructor"))
  /\ getAttribute Sample.input (js "constructor") = Return VNull.
Proof. split; reflexivity. Qed.

Example toString16_META : toString16 57405 = js "e03d".
Proof. reflexivity. Qed.

Example translate_aliases :
  translate Sample.key [[10%N; 9%N]; [8%N; 57352%N; 65%N]] None
    = Return [ {| persist := false;
                  keys := [ KKey botKey.ENTER; KKey botKey.TAB;
                            KKey botKey.BACKSPACE; KKey botKey.SHIFT;
                            KString (js "A") ] |} ].
Proof. vm_compute. reflexivity. Qed.

(** U+E001 is in the reserved range and is not assigned in the table. *)
Example translate_cancel_key :
  translate Sample.key [js "ab"; [57345%N]; js "c"] (Some true)
    = Throw (Error (js "Unsupported WebDriver key: \ue001")).
Proof. vm_compute. reflexivity. Qed.

(** A keyboard that breaks down at its third call: the first two batches
    are typed and stay typed, the third and the fourth are not. *)
Example type_stops_at_failure :
  type Sample.key Sample.input [[10%N; 57344%N; 65%N; 57344%N]] None (Some true)
       {| Sample.typed := []; Sample.left := 2 |}
    = (Throw (Thrown (js "keyboard failure")),
       {| Sample.typed := [ ([KKey botKey.ENTER], true); ([], false) ];
          Sample.left := 0 |}).
Proof. vm_compute. reflexivity. Qed.

Example type_all_batches :
  type Sample.key Sample.input [js "a"; [57344%N]; js "b"] None None
       {| Sample.typed := []; Sample.left := 5 |}
    = (Return tt,
       {| Sample.typed := [ ([KString (js "a")], false);
                            ([KString (js "b")], false) ];
          Sample.left := 3 |}).
Proof. vm_compute. reflexivity. Qed.

(** * Further properties *)

(** ** The attribute resolver, rule by rule *)

Section GetAttributeRules.
Context `{JSRuntime} {Element : Type} `{!DomAdapter Element}.

Lemma spellcheck_property_string (element : Element) (name : JSString) v :
  spellcheck_property element name = Return v -> exists s, v = VString s.
Proof.
  unfold spellcheck_property.
  destruct (bot_dom_getProperty _ _) as [p|]; simpl; [|discriminate].
  destruct (concat_empty p) as [s|]; simpl; [|discriminate].
  intros [= <-]. by exists s.
Qed.

(** The value the general rule settles on is never an object, so that its
    [toString] is that of a primitive. *)
Lemma method_toString_primitive (v : JSValue) :
  goog_isDefAndNotNull v = true -> goog_isObject v = false ->
  exists s, method_toString v = Return s.
Proof. destruct v; simpl; intros; try discriminate; by eexists. Qed.

(** X1. Asked for "selected" or "checked" (in any casing), [getAttribute]
    agrees with [isSelected]: where [isSelected] answers true the result is
    "true", and on a selectable element where it answers false the result
    is null, whatever the raw attribute and the property hold. *)
Theorem getAttribute_selection_isSelected
    (element : Element) (attribute : JSString) :
  toLowerCase attribute = js "selected" \/ toLowerCase attribute = js "checked" ->
  (isSelected element = true ->
     getAttribute element attribute = Return (VString (js "true")))
  /\ (bot_dom_isSelectable element = true -> isSelected element = false ->
        getAttribute element attribute = Return VNull).
Proof.
  intros Hname. unfold isSelected, getAttribute. cbv zeta.
  destruct (bot_dom_isSelectable element); simpl.
  - destruct Hname as [-> | ->]; literals; simpl;
      (split; [by intros -> | by intros _ ->]).
  - split; discriminate.
Qed.

(** X2. Asked for "style", [getAttribute] reads [element.style] and nothing
    else, and does not throw: a style that is a string (the empty one
    included) or is falsy is returned as it is, a style object gives its
    [cssText]. *)
Theorem getAttribute_style_rule (element : Element) (attribute : JSString) :
  toLowerCase attribute = js "style" ->
  (forall s, element_style element = VString s ->
     getAttribute element attribute = Return (VString s))
  /\ (truthy (element_style element) = false ->
        getAttribute element attribute = Return (element_style element))
  /\ (forall o, element_style element = VObject o ->
        getAttribute element attribute = Return (object_get o (js "cssText")))
  /\ (exists v, getAttribute element attribute = Return v).
Proof.
  intros Hname. unfold getAttribute. cbv zeta. rewrite Hname. literals.
  cbv iota. split; [|split; [|split]].
  - intros s ->. simpl. by rewrite andb_false_r.
  - by intros ->.
  - by intros o ->.
  - by eexists.
Qed.


(** X4. The result honours the declared type [?string] outside the style
    rule and the link and image rule: for any other name and element, what
    [getAttribute] returns is a string or null. *)
Theorem getAttribute_string_or_null
    (element : Element) (attribute : JSString) (v : JSValue) :
  toLowerCase attribute <> js "style" ->
  ~ (bot_dom_isElement element TagName.A = true
     /\ toLowerCase attribute = js "href") ->
  ~ (bot_dom_isElement element TagName.IMG = true
     /\ toLowerCase attribute = js "src") ->
  getAttribute element attribute = Return v ->
  v = VNull \/ exists s, v = VString s.
Proof.
  intros Hstyle Hlink Himg.
  destruct (special_case element (toLowerCase attribute)) eqn:Hsp.
  - revert Hsp. unfold special_case, getAttribute. cbv zeta.
    rewrite (bool_decide_eq_false_2 (js "style" = toLowerCase attribute))
      by congruence.
    assert ((bot_dom_isElement element TagName.IMG
             && bool_decide (toLowerCase attribute = js "src"))
            || (bot_dom_isElement element TagName.A
                && bool_decide (toLowerCase attribute = js "href")) = false)
      as ->.
    { apply orb_false_intro; apply andb_false_iff.
      - destruct (bot_dom_isElement element TagName.IMG); [right|by left].
        apply bool_decide_eq_false_2. intros Heq. by apply Himg.
      - destruct (bot_dom_isElement element TagName.A); [right|by left].
        apply bool_decide_eq_false_2. intros Heq. by apply Hlink. }
    simpl.
    destruct ((bool_decide (js "selected" = toLowerCase attribute)
               || bool_decide (js "checked" = toLowerCase attribute))
              && bot_dom_isSelectable element); simpl.
    { intros _. destruct (bot_dom_isSelected element); intros [= <-]; eauto. }
    intros ->.
    destruct (bot_dom_getAttribute element (toLowerCase attribute)) as [text|];
      [|intros ?%spellcheck_property_string; by right].
    repeat case_bool_decide;
      [intros [= <-]; eauto.. | intros ?%spellcheck_property_string; by right].
  - rewrite getAttribute_not_special by done.
    destruct (goog_array_contains BOOLEAN_PROPERTIES_ (toLowerCase attribute)).
    + destruct (bot_dom_getAttribute element attribute); simpl.
      { intros [= <-]. eauto. }
      destruct (bot_dom_getProperty element (propName attribute)) as [p|];
        simpl; [|discriminate].
      destruct (truthy p); intros [= <-]; eauto.
    + cbv zeta.
      destruct (goog_isDefAndNotNull _) eqn:Hdef; [|intros [= <-]; by left].
      destruct (method_toString _) as [s|]; simpl; [|discriminate].
      intros [= <-]. eauto.
Qed.

(** X5. On an anchor asked for "href" or an image asked for "src", an
    attribute that is present and empty is returned as the empty string;
    the property is not read, so that the result is the same where reading
    it would throw. *)
Theorem link_image_empty_attribute (element : Element) (attribute : JSString) :
  (bot_dom_isElement element TagName.A = true /\ toLowerCase attribute = js "href")
  \/ (bot_dom_isElement element TagName.IMG = true /\ toLowerCase attribute = js "src") ->
  bot_dom_getAttribute element (toLowerCase attribute) = Some [] ->
  getAttribute element attribute = Return (VString []).
Proof.
  intros Hcase Hattr. unfold getAttribute. cbv zeta. rewrite Hattr.
  destruct Hcase as [[-> ->]|[-> ->]]; literals; simpl;
    by rewrite ?orb_true_r.
Qed.
End GetAttributeRules.

(** ** isInHead_ *)

Section IsInHeadFacts.
Context `{JSRuntime}.

(** X6. [isInHead_] answers true exactly when the node or one of its
    ancestors, as far up as [parentNode] can be read, has a non-empty
    [tagName] that is "head" up to case; [null] is not in the head, and a
    node inherits the positive answer of its parent. *)
Theorem isInHead_ancestors (element : Node) :
  (isInHead_ (Some element) = true <->
   exists node t,
     node ∈ ancestors_or_self element
     /\ tagName node = Some t /\ t <> [] /\ toLowerCase t = js "head")
  /\ isInHead_ None = false
  /\ (forall t, isInHead_ (Some element) = true ->
                isInHead_ (Some (Child t element)) = true).
Proof.
  assert (forall node, is_head node = true <->
            exists t, tagName node = Some t /\ t <> []
                      /\ toLowerCase t = js "head") as Hhead.
  { intros node. unfold is_head. destruct (tagName node) as [t|].
    - rewrite andb_true_iff, negb_true_iff, bool_decide_eq_false,
        bool_decide_eq_true. split.
      + intros [? ?]. by exists t.
      + by intros (? & [= <-] & ? & ?).
    - split; [done | by intros (? & ? & _)]. }
  split; [|split].
  - cbn [isInHead_]. induction element as [t|t parent IH|t e];
      cbn [isInHead_loop ancestors_or_self];
      destruct (is_head _) eqn:Hh.
    + split; [intros _|done]. apply Hhead in Hh as (t' & ? & ? & ?).
      exists (Detached t), t'. split; [apply list_elem_of_here|done].
    + split; [done|]. intros (node & t' & ->%list_elem_of_singleton & Ht).
      assert (is_head (Detached t) = true) by (apply Hhead; eauto).
      congruence.
    + split; [intros _|done]. apply Hhead in Hh as (t' & ? & ? & ?).
      exists (Child t parent), t'. split; [apply list_elem_of_here|done].
    + rewrite IH. split.
      * intros (node & t' & Hin & Ht). exists node, t'.
        split; [by apply list_elem_of_further|done].
      * intros (node & t' & Hin & Ht).
        apply elem_of_cons in Hin as [->|Hin]; [|by exists node, t'].
        assert (is_head (Child t parent) = true) by (apply Hhead; eauto).
        congruence.
    + split; [intros _|done]. apply Hhead in Hh as (t' & ? & ? & ?).
      exists (Unreadable t e), t'. split; [apply list_elem_of_here|done].
    + split; [done|]. intros (node & t' & ->%list_elem_of_singleton & Ht).
      assert (is_head (Unreadable t e) = true) by (apply Hhead; eauto).
      congruence.
  - reflexivity.
  - intros t. cbn [isInHead_ isInHead_loop]. intros ->.
    by destruct (is_head _).
Qed.
End IsInHeadFacts.

(** ** The hexadecimal code in the error message *)

Lemma hex_value_digit (d : N) : (d < 16)%N -> hex_value (hex_digit d) = d.
Proof.
  intros Hd. unfold hex_value, hex_digit.
  destruct (N.ltb_spec d 10).
  - destruct (N.ltb_spec (48 + d) 58); lia.
  - destruct (N.ltb_spec (87 + d) 58); lia.
Qed.

Lemma hex_digit_range (d : N) :
  (d < 16)%N ->
  (48 <= hex_digit d <= 57 \/ 97 <= hex_digit d <= 102)%N.
Proof. intros Hd. unfold hex_digit. destruct (N.ltb_spec d 10); lia. Qed.

Lemma pos_lt_pow_size (q : positive) :
  (N.pos q < 2 ^ N.of_nat (Pos.size_nat q))%N.
Proof.
  induction q as [q IH|q IH|]; cbn [Pos.size_nat];
    rewrite ?Nat2N.inj_succ, ?N.pow_succ_r'; [lia..|done].
Qed.

Lemma hex_digits_spec (fuel : nat) :
  forall n acc,
    (n < 16 ^ N.of_nat fuel)%N ->
    exists ds,
      hex_digits fuel n acc = ds ++ acc
      /\ fold_left (fun a c => 16 * a + hex_value c)%N ds 0%N = n
      /\ Forall (fun c => 48 <= c <= 57 \/ 97 <= c <= 102)%N ds
      /\ (fuel <> O -> ds <> []).
Proof.
  induction fuel as [|fuel IH]; intros n acc Hn.
  { exists []. change (16 ^ N.of_nat 0)%N with 1%N in Hn.
    repeat split; [cbn; lia | constructor | done]. }
  rewrite Nat2N.inj_succ, N.pow_succ_r' in Hn. cbn [hex_digits].
  assert (n mod 16 < 16)%N as Hmod by (apply N.mod_lt; lia).
  destruct (N.eqb_spec (n / 16) 0) as [Hq|Hq].
  - exists [hex_digit (n mod 16)]. split; [done|]. split; [|split].
    + cbn. rewrite hex_value_digit by done.
      pose proof (N.div_mod' n 16). lia.
    + constructor; [by apply hex_digit_range | constructor].
    + done.
  - destruct (IH (n / 16)%N (hex_digit (n mod 16) :: acc)) as (ds & -> & Hv & Hall & _).
    { apply N.Div0.div_lt_upper_bound. lia. }
    exists (ds ++ [hex_digit (n mod 16)]). split; [by rewrite <- app_assoc|].
    split; [|split].
    + rewrite fold_left_app, Hv. cbn. rewrite hex_value_digit by done.
      pose proof (N.div_mod' n 16). lia.
    + apply Forall_app. split; [done|].
      constructor; [by apply hex_digit_range | constructor].
    + intros _. by destruct ds.
Qed.

(** X7. The code [toString16] writes in the error message denotes the
    code unit: read as a hexadecimal number it gives the code unit back. It
    is never empty and is made of the digits 0-9 and a-f only, and two code
    units with the same text are equal. *)
Theorem toString16_round_trip (n : N) :
  hex_number (toString16 n) = n
  /\ toString16 n <> []
  /\ Forall (fun c => 48 <= c <= 57 \/ 97 <= c <= 102)%N (toString16 n)
  /\ (forall m, toString16 m = toString16 n -> m = n).
Proof.
  assert (forall k, hex_number (toString16 k) = k
                    /\ toString16 k <> []
                    /\ Forall (fun c => 48 <= c <= 57 \/ 97 <= c <= 102)%N
                         (toString16 k)) as Hall.
  { intros k. unfold hex_number, toString16.
    destruct (hex_digits_spec (S (N.size_nat k)) k []) as (ds & -> & Hv & Hd & Hne).
    - rewrite Nat2N.inj_succ, N.pow_succ_r'.
      assert (k < 2 ^ N.of_nat (N.size_nat k))%N as Hlt.
      { destruct k as [|q]; [done | apply pos_lt_pow_size]. }
      assert (2 ^ N.of_nat (N.size_nat k) <= 16 ^ N.of_nat (N.size_nat k))%N
        by (apply N.pow_le_mono_l; lia).
      lia.
    - rewrite app_nil_r. split; [done|]. split; [by apply Hne | done]. }
  destruct (Hall n) as (Hn & Hne & Hd). split; [done|]. split; [done|].
  split; [done|]. intros m Heq.
  destruct (Hall m) as (Hm & _). rewrite Heq, Hn in Hm. done.
Qed.

(** ** The key table *)

Section KeyTable.
Variable key : Key.t.

Local Abbreviation assign :=
  (fun (m : gmap JSString (option botKey.t)) (kv : JSString * option botKey.t) =>
     <[ kv.1 := kv.2 ]> m).

Lemma JSON_TO_KEY_MAP_assignments :
  JSON_TO_KEY_MAP_ key = foldl assign ∅ (assignments key).
Proof. reflexivity. Qed.


Lemma lookup_assign_null l :
  Forall (fun kv : JSString * option botKey.t => kv.2 <> None) l ->
  forall m k,
    foldl assign m l !! k = Some None <-> (k ∉ l.*1) /\ m !! k = Some None.
Proof.
  induction 1 as [|[k' v] l Hv _ IH]; intros m k; cbn [foldl fmap list_fmap].
  { split; [intros ?; split; [apply not_elem_of_nil | done] | by intros [_ ?]]. }
  rewrite IH, not_elem_of_cons, lookup_insert. cbn [fst snd] in *.
  case_decide as Hk.
  - subst. split; [intros [_ [= ?]]; done | intros [[? _] _]; done].
  - split; [intros [? ?] | intros [[_ ?] ?]]; split; auto; congruence.
Qed.


(** X9. The table holds null at [Key.NULL] and nowhere else, and holds it
    there unless a later assignment of the block reuses that code: the
    release code is [Key.NULL], provided it is the code of no other key. *)
Theorem JSON_TO_KEY_MAP_null (k : JSString) :
  JSON_TO_KEY_MAP_ key !! k = Some None <->
  k = Key.NULL key /\ Key.NULL key ∉ codes_after_NULL key.
Proof.
  rewrite JSON_TO_KEY_MAP_assignments. unfold codes_after_NULL.
  change (assignments key) with ((Key.NULL key, None) :: tail (assignments key)).
  cbn [foldl]. rewrite lookup_assign_null.
  - cbn [fst snd]. rewrite lookup_insert. case_decide as Hk.
    + subst. tauto.
    + rewrite lookup_empty. split; [by intros [_ ?] | intros [? _]; congruence].
  - cbn [tail assignments]. repeat (constructor; [done|]). constructor.
Qed.
End KeyTable.

(** ** What the translation keeps of its input *)

Section TranslateMore.
Context `{JSRuntime}.
Variable key : Key.t.

Lemma segment_keys p ks :
  forall cur bs,
    segment key p ks cur = Return bs ->
    concat (List.map keys bs) = keys cur ++ omap (pushed key) ks.
Proof.
  induction ks as [|k ks IH]; intros cur bs; cbn [segment omap].
  { intros [= <-]. cbn. by rewrite !app_nil_r. }
  cbn [list_omap]. unfold pushed at 1.
  destruct (action_of key k) as [x| |]; [| |done].
  - intros Hbs. rewrite (IH _ _ Hbs). cbn. by rewrite <- app_assoc.
  - destruct (segment key p ks (createSequenceRecord p)) as [rest|] eqn:Hrest;
      [|done].
    cbn [bind']. intros [= <-]. cbn [List.map concat]. f_equal.
    rewrite List.map_app, concat_app, (IH _ _ Hrest).
    unfold forced. by destruct p.
Qed.

(** X10. A translation that succeeds neither drops, repeats nor reorders
    a key: the key lists of the batches, put end to end, are the entries of
    the raw keys in input order, the release codes alone giving none. In
    particular there is always a first batch. *)
Theorem translate_keeps_keys
    (keys0 : list JSString) (opt : option bool) (bs : list SequenceRecord) :
  translate key keys0 opt = Return bs ->
  concat (List.map keys bs) = omap (pushed key) (split (concat keys0))
  /\ bs <> [].
Proof.
  rewrite translate_segment. intros Hbs. split.
  - by rewrite (segment_keys _ _ _ _ Hbs).
  - apply segment_flags in Hbs. by destruct bs.
Qed.

(** X11. How the code units are cut into sequences is of no consequence:
    two inputs with the same code units in the same order translate alike,
    and [type] acts alike on them. *)
Theorem type_sequence_boundaries
    {Element Keyboard World : Type} `{!Executor Element Keyboard World}
    (keys1 keys2 : list JSString) (opt : option bool)
    (element : Element) (kb : option Keyboard) (w : World) :
  concat keys1 = concat keys2 ->
  translate key keys1 opt = translate key keys2 opt
  /\ type key element keys1 kb opt w = type key element keys2 kb opt w.
Proof.
  intros Heq. unfold translate, type, convert.
  by rewrite !goog_array_forEach_nested, Heq.
Qed.

Lemma segment_same_action p (k k' : JSString) ks2 :
  action_of key k = action_of key k' ->
  action_of key k <> Unsupported ->
  forall ks1 cur,
    segment key p (ks1 ++ k :: ks2) cur = segment key p (ks1 ++ k' :: ks2) cur.
Proof.
  intros Hact Hsup. induction ks1 as [|k1 ks1 IH]; intros cur.
  - cbn [app segment]. rewrite <- Hact. by destruct (action_of key k).
  - rewrite <- !app_comm_cons. cbn [segment].
    destruct (action_of key k1); [apply IH | by rewrite IH | done].
Qed.

(** X12. The characters newline, tab and backspace stand for the protocol
    codes of ENTER, TAB and BACKSPACE: replacing, anywhere in the input, a
    code the table maps to one of these keys by the character leaves the
    translation as it is. *)
Theorem control_character_aliases (c u : N) (b : botKey.t) :
  (c, b) ∈ [ (10%N, botKey.ENTER); (9%N, botKey.TAB); (8%N, botKey.BACKSPACE) ] ->
  (57344 <= u <= 57405)%N ->
  JSON_TO_KEY_MAP_ key !! [u] = Some (Some b) ->
  forall keys1 keys2 opt s1 s2,
    concat keys1 = s1 ++ u :: s2 ->
    concat keys2 = s1 ++ c :: s2 ->
    translate key keys1 opt = translate key keys2 opt.
Proof.
  intros Hc Hrange%isWebDriverKey_range Hmap keys1 keys2 opt s1 s2 H1 H2.
  rewrite !translate_segment, H1, H2, !split_app. cbn [split List.map].
  assert (action_of key [u] = Push (KKey b)) as Hu.
  { unfold action_of. by rewrite Hrange, Hmap. }
  apply segment_same_action; [|by rewrite Hu].
  rewrite Hu. clear -Hc.
  repeat (apply elem_of_cons in Hc as [[= -> ->]|Hc]; [reflexivity|]).
  by apply elem_of_nil in Hc.
Qed.

Lemma segment_plain p (s : JSString) :
  Forall (fun u => isWebDriverKey [u] = false) s ->
  forall cur,
    segment key p (split s) cur
    = Return [ {| persist := persist cur;
                  keys := keys cur ++ List.map (fun u => plain_key [u]) s |} ].
Proof.
  induction 1 as [|u s Hu _ IH]; intros cur; cbn [split List.map segment].
  { rewrite app_nil_r. by destruct cur. }
  fold (split s). unfold action_of. rewrite Hu, IH. cbn.
  by rewrite <- app_assoc.
Qed.

(** X13. An input with no code unit in the reserved range never fails to
    translate and gives one batch: one entry per code unit, in order, the
    key ENTER, TAB or BACKSPACE for newline, tab or backspace and the
    character itself otherwise, with the requested persist flag. *)
Theorem translate_plain_text (keys0 : list JSString) (opt : option bool) :
  (forall u, u ∈ concat keys0 -> ~ (57344 <= u <= 57405)%N) ->
  translate key keys0 opt
  = Return [ {| persist := persistModifierKeys_of opt;
                keys := List.map (fun u => plain_key [u]) (concat keys0) |} ].
Proof.
  intros Hplain. rewrite translate_segment, segment_plain; [done|].
  apply Forall_forall. intros u Hu. apply not_true_is_false.
  intros Hin%isWebDriverKey_range. by apply (Hplain u).
Qed.
End TranslateMore.

(** ** The executor loop, as a function of the batches *)

Section ForEachFacts.
Context {Exn A S : Type}.
Implicit Types (f : A -> S -> JSResult' Exn unit * S) (s : S).

Lemma goog_array_forEach_throw_inv (l : list A) f :
  forall s e s',
    goog_array_forEach l f s = (Throw e, s') ->
    exists x s0, x ∈ l /\ f x s0 = (Throw e, s').
Proof.
  induction l as [|x l IH]; intros s e s'; cbn [goog_array_forEach]; [done|].
  destruct (f x s) as [[[]|e0] s1] eqn:Hx.
  - intros (y & s0 & Hy & Hf)%IH. exists y, s0.
    split; [by apply list_elem_of_further | done].
  - intros [= <- <-]. exists x, s. split; [apply list_elem_of_here | done].
Qed.

Lemma goog_array_forEach_no_throw (l : list A) f :
  (forall x s, (f x s).1 = Return tt) ->
  forall s, (goog_array_forEach l f s).1 = Return tt.
Proof.
  intros Hf. induction l as [|x l IH]; intros s; cbn [goog_array_forEach];
    [done|].
  specialize (Hf x s). destruct (f x s) as [[[]|e0] s1]; [apply IH | done].
Qed.
End ForEachFacts.

Section ExecutorLoopMore.
Context `{JSRuntime} {Element Keyboard World : Type}
        `{!Executor Element Keyboard World}.
Variable key : Key.t.
Variables (element : Element) (kb : option Keyboard).

Local Abbreviation execute :=
  (fun (b : SequenceRecord) (w : World) =>
     bot_action_type element (keys b) kb (persist b) w).

Lemma forEach_type_sequence (st : TypeState) (l : list SequenceRecord) :
  forall pre w,
    heap st = pre ++ l ->
    goog_array_forEach (seq (length pre) (length l))
      (type_sequence element kb st) w
    = goog_array_forEach l execute w.
Proof.
  induction l as [|b l IH]; intros pre w Hheap; [done|].
  cbn [length seq goog_array_forEach]. unfold type_sequence at 1.
  rewrite Hheap, list_lookup_middle by done.
  destruct (bot_action_type element (keys b) kb (persist b) w)
    as [[[]|e] w1]; [|done].
  specialize (IH (pre ++ [b]) w1). rewrite length_app, Nat.add_1_r in IH.
  apply IH. by rewrite <- app_assoc.
Qed.

(** The state the two loops over the keys leave, when they return, is
    well formed, and holds the batches of the translation. *)
Lemma convert_wf (p : bool) (keys0 : list JSString) :
  match convert key p keys0 with
  | (Return _, st) =>
      wf st /\ segment key p (split (concat keys0)) (createSequenceRecord p)
               = Return (heap st)
  | (Throw e, _) =>
      segment key p (split (concat keys0)) (createSequenceRecord p) = Throw e
  end.
Proof.
  unfold convert. rewrite goog_array_forEach_nested.
  pose proof (convert_segment key p (split (concat keys0)) _ [] _
                (proj1 (wf_initial p)) (proj2 (wf_initial p))) as Hsim.
  destruct (goog_array_forEach _ _ _) as [[[]|e] st]; [|done].
  destruct Hsim as (Hwf & rest & -> & ->). done.
Qed.

(** [type] runs the executor over the batches of the translation. *)
Lemma type_run (keys0 : list JSString) (opt : option bool) (w : World) :
  type key element keys0 kb opt w
  = match translate key keys0 opt with
    | Return bs => goog_array_forEach bs execute w
    | Throw e => (Throw e, w)
    end.
Proof.
  unfold type, translate.
  pose proof (convert_wf (persistModifierKeys_of opt) keys0) as Hwf.
  destruct (convert key _ keys0) as [[[]|e] st]; [|done].
  destruct Hwf as [Hwf _]. rewrite (batches_wf st Hwf).
  destruct Hwf as [-> _].
  apply (forEach_type_sequence st (heap st) [] w eq_refl).
Qed.

(** X14. A release code cuts a call of [type] in two: when what precedes
    it and what follows it both translate, typing the whole input is typing
    what precedes, then, when modifiers persist, asking the executor for an
    empty batch without persistence, then typing what follows; a failure at
    any of these steps ends the call there. *)
Theorem type_release_code_sequential
    (u : N) (keys0 : list JSString) (s1 s2 : JSString) (opt : option bool)
    (bs1 bs2 : list SequenceRecord) (w : World) :
  (57344 <= u <= 57405)%N ->
  JSON_TO_KEY_MAP_ key !! [u] = Some None ->
  concat keys0 = s1 ++ u :: s2 ->
  translate key [s1] opt = Return bs1 ->
  translate key [s2] opt = Return bs2 ->
  type key element keys0 kb opt w
  = match type key element [s1] kb opt w with
    | (Throw e, w1) => (Throw e, w1)
    | (Return _, w1) =>
        match (if persistModifierKeys_of opt
               then bot_action_type element [] kb false w1
               else (Return tt, w1)) with
        | (Throw e, w2) => (Throw e, w2)
        | (Return _, w2) => type key element [s2] kb opt w2
        end
    end.
Proof.
  intros Hrange%isWebDriverKey_range Hnull Hkeys Hbs1 Hbs2.
  assert (is_release key [u] = true) as Hrel by by apply is_release_spec.
  rewrite (type_run keys0), (type_run [s1]), Hbs1.
  assert (translate key keys0 opt
          = Return (bs1 ++ forced (persistModifierKeys_of opt) ++ bs2)) as ->.
  { revert Hbs1 Hbs2. rewrite !translate_segment, Hkeys. cbn [concat].
    rewrite !app_nil_r, split_app. intros Hbs1 Hbs2.
    by apply (segment_app_release key _ [u]). }
  rewrite goog_array_forEach_app.
  destruct (goog_array_forEach bs1 _ w) as [[[]|e] w1]; [|done].
  rewrite goog_array_forEach_app. unfold forced.
  destruct (persistModifierKeys_of opt) eqn:Hp; cbn [goog_array_forEach].
  - cbn [keys persist].
    destruct (bot_action_type element [] kb false w1) as [[[]|e] w2]; [|done].
    by rewrite (type_run [s2]), Hbs2.
  - by rewrite (type_run [s2]), Hbs2.
Qed.

(** X15. [type] throws nothing of its own but the unsupported-key error:
    what it throws is thrown either by the translation, the executor not
    having been invoked, or by the executor on one of the translated
    batches. With keys that translate and an executor that does not throw,
    [type] returns normally. *)
Theorem type_error_provenance
    (keys0 : list JSString) (opt : option bool) (w : World) :
  (forall e w',
     type key element keys0 kb opt w = (Throw e, w') ->
     (translate key keys0 opt = Throw e /\ w' = w)
     \/ (exists bs b w0,
           translate key keys0 opt = Return bs /\ b ∈ bs
           /\ bot_action_type element (keys b) kb (persist b) w0 = (Throw e, w')))
  /\ ((forall ks p w0, (bot_action_type element ks kb p w0).1 = Return tt) ->
      forall bs, translate key keys0 opt = Return bs ->
                 (type key element keys0 kb opt w).1 = Return tt).
Proof.
  rewrite type_run. split.
  - intros e w'. destruct (translate key keys0 opt) as [bs|e0].
    + intros (b & w0 & Hb & Hcall)%goog_array_forEach_throw_inv.
      right. by exists bs, b, w0.
    + intros [= <- <-]. by left.
  - intros Hok bs ->. apply goog_array_forEach_no_throw. intros b w0. apply Hok.
Qed.

(** X16. When the loops over the keys return, every record [type] has
    allocated is referenced by [convertedSequences] exactly once, in the
    order of allocation, [current] is the record allocated last, and
    reading the references gives the records: no write through [current]
    is lost and no reference dangles. *)
Theorem convert_references
    (p : bool) (keys0 : list JSString) (st : TypeState) :
  convert key p keys0 = (Return tt, st) ->
  convertedSequences st = seq 0 (length (heap st))
  /\ S (current st) = length (heap st)
  /\ batches st = heap st.
Proof.
  intros Hconv. pose proof (convert_wf p keys0) as Hwf.
  rewrite Hconv in Hwf. destruct Hwf as [Hwf _].
  split; [apply Hwf|]. split; [apply Hwf|]. by apply batches_wf.
Qed.
End ExecutorLoopMore.

(** ** Where the resolver throws *)

Section GetAttributeThrows.
Context `{JSRuntime} {Element : Type} `{!DomAdapter Element}.

End GetAttributeThrows.

(** ** The further properties on the sample page and keyboard *)

(** X1 on the sample checkbox, checked without a [checked] attribute. *)
Lemma getAttribute_selection_witness :
  getAttribute sample_checkbox (js "CHECKED") = Return (VString (js "true")).
Proof.
  refine (proj1 (getAttribute_selection_isSelected
                   sample_checkbox (js "CHECKED") _) _).
  - right. reflexivity.
  - reflexivity.
Defined.

(** X2 on the sample anchor, whose style is an object. *)
Lemma getAttribute_style_witness :
  getAttribute Sample.anchor (js "Style") = Return (VString (js "color: red;")).
Proof.
  refine (proj1 (proj2 (proj2 (getAttribute_style_rule
                                 Sample.anchor (js "Style") _)))
            (Sample.CSSStyleDeclaration (js "color: red;")) _);
    reflexivity.
Defined.


(** X4 on the sample button and its number-valued [tabIndex]. *)
Lemma getAttribute_string_or_null_witness :
  let v : JSValue' N Sample.object := VString (js "7") in
  getAttribute sample_button (js "tabIndex") = Return v
  /\ (v = VNull \/ exists s, v = VString s).
Proof.
  intros v. split; [reflexivity|].
  apply (@getAttribute_string_or_null Sample.runtime _ Sample.dom
           sample_button (js "tabIndex") v).
  - discriminate.
  - intros [Htag _]. discriminate Htag.
  - intros [Htag _]. discriminate Htag.
  - reflexivity.
Defined.

(** X5 on the sample anchor with [href=""]. *)
Lemma link_image_empty_attribute_witness :
  getAttribute sample_empty_anchor (js "href") = Return (VString []).
Proof.
  apply (link_image_empty_attribute sample_empty_anchor (js "href")).
  - left. split; reflexivity.
  - reflexivity.
Defined.

(** X10 on shift, "a", the release code and "b", with persistence. *)
Lemma translate_keeps_keys_witness :
  concat (List.map keys
    [ {| persist := true; keys := [KKey botKey.SHIFT; KString (js "a")] |};
      {| persist := false; keys := [] |};
      {| persist := true; keys := [KString (js "b")] |} ])
  = [KKey botKey.SHIFT; KString (js "a"); KString (js "b")].
Proof.
  refine (proj1 (translate_keeps_keys Sample.key
                   [[57352%N; 97%N; 57344%N]; js "b"] (Some true) _ _)).
  vm_compute. reflexivity.
Defined.

(** X11 on "ab", "c" and "a", "bc", typed on the sample keyboard. *)
Lemma type_sequence_boundaries_witness :
  type Sample.key Sample.input [js "ab"; js "c"] None None
       {| Sample.typed := []; Sample.left := 3 |}
  = type Sample.key Sample.input [js "a"; js "bc"] None None
       {| Sample.typed := []; Sample.left := 3 |}.
Proof.
  refine (proj2 (type_sequence_boundaries Sample.key
                   [js "ab"; js "c"] [js "a"; js "bc"] None
                   Sample.input None _ _)).
  reflexivity.
Defined.

(** X12 with the wire protocol's table: U+E007 is the code of ENTER. *)
Lemma control_character_aliases_witness :
  translate Sample.key [js "a"; [57351%N]; js "b"] None
  = translate Sample.key [[97%N; 10%N; 98%N]] None.
Proof.
  apply (control_character_aliases Sample.key 10%N 57351%N botKey.ENTER)
    with (s1 := js "a") (s2 := js "b").
  - apply list_elem_of_here.
  - lia.
  - vm_compute. reflexivity.
  - reflexivity.
  - reflexivity.
Defined.

(** X13 on "hi" and a newline. *)
Lemma translate_plain_text_witness :
  translate Sample.key [js "hi"; [10%N]] (Some true)
  = Return [ {| persist := true;
                keys := [KString (js "h"); KString (js "i"); KKey botKey.ENTER] |} ].
Proof.
  apply (translate_plain_text Sample.key [js "hi"; [10%N]] (Some true)).
  intros u Hu.
  change (concat [js "hi"; [10%N]]) with [104%N; 105%N; 10%N] in Hu.
  repeat (apply elem_of_cons in Hu as [->|Hu]; [lia|]).
  by apply elem_of_nil in Hu.
Defined.

(** X14 on "a", the release code and "b", with persistence, on a sample
    keyboard that serves all three calls. *)
Lemma type_release_code_sequential_witness :
  type Sample.key Sample.input [js "a"; [57344%N]; js "b"] None (Some true)
       {| Sample.typed := []; Sample.left := 3 |}
  = (Return tt,
     {| Sample.typed := [ ([KString (js "a")], true); ([], false);
                          ([KString (js "b")], true) ];
        Sample.left := 0 |}).
Proof.
  refine (eq_trans
            (type_release_code_sequential Sample.key Sample.input None
               57344%N [js "a"; [57344%N]; js "b"] (js "a") (js "b") (Some true)
               [ {| persist := true; keys := [KString (js "a")] |} ]
               [ {| persist := true; keys := [KString (js "b")] |} ]
               {| Sample.typed := []; Sample.left := 3 |} _ _ _ _ _) _).
  - lia.
  - vm_compute. reflexivity.
  - reflexivity.
  - vm_compute. reflexivity.
  - vm_compute. reflexivity.
  - vm_compute. reflexivity.
Defined.

(** X16 on "a", the release code and "b", with persistence: three records,
    referenced in order. *)
Lemma convert_references_witness :
  convertedSequences
    (convert Sample.key true [js "a"; [57344%N]; js "b"]).2 = [0; 1; 2].
Proof.
  refine (eq_trans
            (proj1 (convert_references Sample.key true
                      [js "a"; [57344%N]; js "b"] _ _)) _).
  - vm_compute. reflexivity.
  - vm_compute. reflexivity.
Defined.

(** ** How many batches *)

Section BatchCount.
Context `{JSRuntime}.
Variable key : Key.t.

Lemma length_flags (p : bool) (ks : list JSString) :
  length (flat_map (flags_of key p) ks)
  = (if p then 2 else 1)
    * length (filter (fun k => is_release key k = true) ks).
Proof.
  induction ks as [|k ks IH]; cbn [flat_map]; [by rewrite Nat.mul_0_r|].
  rewrite length_app, IH, filter_cons. unfold flags_of.
  destruct (is_release key k) eqn:Hk.
  - rewrite decide_True by done. cbn [length]. destruct p; cbn [length]; lia.
  - rewrite decide_False by done. cbn [length]. lia.
Qed.

(** X18. A translation that succeeds gives one batch, plus one for each
    release code of the input, or two for each when modifiers persist:
    [type] then invokes the executor at most that many times. *)
Theorem translate_batch_count
    (keys0 : list JSString) (opt : option bool) (bs : list SequenceRecord) :
  translate key keys0 opt = Return bs ->
  length bs
  = 1 + (if persistModifierKeys_of opt then 2 else 1)
        * length (filter (fun k => is_release key k = true)
                    (split (concat keys0))).
Proof.
  rewrite translate_segment. intros Hflags%segment_flags.
  rewrite <- (length_map persist), Hflags. cbn [length].
  by rewrite length_flags.
Qed.
End BatchCount.

(** X18 on two release codes around "a", with persistence: five batches. *)
Lemma translate_batch_count_witness :
  length
    [ {| persist := true; keys := [] |};
      {| persist := false; keys := [] |};
      {| persist := true; keys := [KString (js "a")] |};
      {| persist := false; keys := [] |};
      {| persist := true; keys := [] |} ] = 5.
Proof.
  refine (eq_trans
            (translate_batch_count Sample.key [[57344%N; 97%N; 57344%N]]
               (Some true) _ _) _).
  - vm_compute. reflexivity.
  - vm_compute. reflexivity.
Defined.

(** ** [isInHead_] on the sample document *)

Example isInHead_title : isInHead_ (Some sample_title) = true.
Proof. reflexivity. Qed.

Example isInHead_stale : isInHead_ (Some sample_stale) = false.
Proof. reflexivity. Qed.

